(** * SIRIUS: dependency resolution and build-staleness engine

    A shallow embedding of the resolver of [sirius.js.old] and of the
    helper modules [sirius_modules/file_management_utils.js] and
    [sirius_modules/string_utils.js].

    - Text is a [string] of 8-bit characters; an array is a [list];
      [undefined] and [null] are [None].
    - A function that only reads the disk is a function of the disk to
      an [Outcome]; a function that prints, writes or deletes is a
      computation [M] on the [State]. A JavaScript exception is an
      outcome, and the state reached when it was thrown is kept.
    - A recursive function takes the [depth] of nesting it may use; a
      call beyond it is the exhaustion of the call stack, a
      [RangeError].
    - [sirius.js.old] reaches the directory walk through the export
      [listFiles] of [file_management_utils]. Its functions are
      embedded over that export as a variable of a section, so that
      what is proved of them holds for every enumeration;
      [FileManagementUtils.listFiles] is the export as the module has
      it, and the section [Wired] is about the program that calls it.
    - The rest of Node.js that the program calls is the class
      [NodeEnv]. *)

From Stdlib Require Import String Ascii List ZArith Bool Arith Lia DecimalString.
From Stdlib Require Import Sorted Permutation.
Import ListNotations.
Open Scope string_scope.

(** ** JavaScript strings and arrays *)

Module Js.

Definition chr (n : nat) : string := String (ascii_of_nat n) EmptyString.

(** The characters that cannot be written inside a literal. *)
Definition quote : string := chr 34.
Definition nl : string := chr 10.
Definition tab : string := chr 9.
Definition esc : string := chr 27.

(** [s.indexOf(t) === 0] *)
Definition startsWith (t s : string) : bool := String.prefix t s.

(** [s.indexOf(t) !== -1] *)
Definition includes (t s : string) : bool :=
  match String.index 0 t s with Some _ => true | None => false end.

(** [s[s.length - 1]], [undefined] on the empty string. *)
Fixpoint lastChar (s : string) : option ascii :=
  match s with
  | EmptyString => None
  | String c EmptyString => Some c
  | String _ r => lastChar r
  end.

(** [a[0]] on an array that is not empty. *)
Definition at0 (a : list string) : string := hd EmptyString a.

(** [s[0]] *)
Definition firstChar (s : string) : option ascii :=
  match s with EmptyString => None | String c _ => Some c end.

(** [s.split(c)] for a one-character separator: never empty. *)
Fixpoint split (c : ascii) (s : string) : list string :=
  match s with
  | EmptyString => [EmptyString]
  | String a r =>
      if Ascii.eqb a c then EmptyString :: split c r
      else match split c r with
           | [] => [String a EmptyString]
           | w :: ws => String a w :: ws
           end
  end.

(** [a.join(sep)] *)
Definition join (sep : string) (a : list string) : string := String.concat sep a.

(** [a.slice(0, -1)] *)
Definition dropLast {A} (a : list A) : list A := removelast a.

(** [a.pop()] used as an expression: the last element. *)
Definition pop (a : list string) : option string :=
  match rev a with [] => None | x :: _ => Some x end.

(** [a.indexOf(x) !== -1] on an array of strings. *)
Definition arrayIncludes (x : string) (a : list string) : bool :=
  existsb (String.eqb x) a.

(** White space of [\s] and of [trim] among the 7-bit characters. *)
Definition isSpace (c : ascii) : bool :=
  let n := nat_of_ascii c in
  (((9 <=? n) && (n <=? 13)) || (n =? 32))%nat.

Fixpoint trimStart (s : string) : string :=
  match s with
  | String c r => if isSpace c then trimStart r else s
  | EmptyString => EmptyString
  end.

Fixpoint trimEnd (s : string) : string :=
  match s with
  | EmptyString => EmptyString
  | String c r =>
      match trimEnd r with
      | EmptyString => if isSpace c then EmptyString else String c EmptyString
      | r' => String c r'
      end
  end.

Definition trim (s : string) : string := trimEnd (trimStart s).

Definition lowerChar (c : ascii) : ascii :=
  let n := nat_of_ascii c in
  if ((65 <=? n) && (n <=? 90))%nat then ascii_of_nat (n + 32) else c.

Fixpoint toLowerCase (s : string) : string :=
  match s with
  | EmptyString => EmptyString
  | String c r => String (lowerChar c) (toLowerCase r)
  end.

(** [toUpperCase] on a character of the 7-bit range. *)
Definition upperChar (c : ascii) : ascii :=
  let n := nat_of_ascii c in
  if ((97 <=? n) && (n <=? 122))%nat then ascii_of_nat (n - 32) else c.

(** [\w] *)
Definition isWordChar (c : ascii) : bool :=
  let n := nat_of_ascii c in
  (((48 <=? n) && (n <=? 57)) || ((65 <=? n) && (n <=? 90))
   || ((97 <=? n) && (n <=? 122)) || (n =? 95))%nat.

(** Drop the first [n] characters. *)
Fixpoint skip (n : nat) (s : string) : string :=
  match n, s with
  | S n', String _ r => skip n' r
  | _, _ => s
  end.

(** [s.replace(pat, rep)] for a literal, non-empty [pat] and a
    replacement without [$]: the first occurrence only. *)
Fixpoint replaceFirst (pat rep s : string) : string :=
  if String.prefix pat s then rep ++ skip (String.length pat) s
  else match s with
       | EmptyString => EmptyString
       | String c r => String c (replaceFirst pat rep r)
       end.

(** [s.replace(/pat/g, rep)] for a literal, non-empty [pat]: every
    occurrence, left to right, without overlap. [hold] counts the
    characters of the current occurrence still to be dropped. *)
Fixpoint replaceAllFrom (hold : nat) (pat rep s : string) : string :=
  match s with
  | EmptyString => EmptyString
  | String c r =>
      match hold with
      | S h => replaceAllFrom h pat rep r
      | O =>
          if String.prefix pat s
          then rep ++ replaceAllFrom (String.length pat - 1) pat rep r
          else String c (replaceAllFrom O pat rep r)
      end
  end.

Definition replaceAll (pat rep s : string) : string := replaceAllFrom 0 pat rep s.

(** Stable insertion sort, the order of [Array.prototype.sort] with a
    comparator [le a b = (cmp(a, b) <= 0)]. *)
Section Sort.
Context {A : Type} (le : A -> A -> bool).

Fixpoint insert (x : A) (l : list A) : list A :=
  match l with
  | [] => [x]
  | y :: r => if le x y then x :: l else y :: insert x r
  end.

Definition sortBy (l : list A) : list A := fold_right insert [] l.
End Sort.

(** [a.sort()] on strings: code-unit order. *)
Definition sort (a : list string) : list string := sortBy String.leb a.

End Js.

(** ** The file system, the process state and exceptions *)

(** A path names a file, with its text and modification time, or a
    directory, with the names it contains. *)
Inductive Node :=
| File (content : string) (mtime : Z)
| Dir (entries : list string) (mtime : Z).

Definition FS := string -> option Node.

Inductive Exn :=
| TypeError (what : string)
| RangeError
| SystemError (what : string).

Inductive Outcome (A : Type) :=
| Returned (a : A)
| Thrown (e : Exn).
Arguments Returned {A} a.
Arguments Thrown {A} e.

(** One inclusion entry of the index: [swcClasses] and
    [globalSwcClasses] are [None] where the object has no such field. *)
Record LibraryRecord := mkRecord {
  swcPath : string;
  swcClasses : option (list string);
  globalSwcClasses : option (list string)
}.

(** The two places of [deleteCache] that call [deletePathNode]. *)
Inductive DeleteSite := BinaryFile | InclusionsFile.

(** The mutable state of a run: the disk and the two globals of
    [sirius.js.old]. [deleted] is a history kept beside them: the calls
    of [deletePathNode] made by [deleteCache], in order, each with its
    place and its path. *)
Record State := mkState {
  fs : FS;
  deleted : list (DeleteSite * string);
  mustPrintLess : bool;
  currentProjectFolder : option string
}.

Definition setFs (f : FS) (st : State) : State :=
  mkState f (deleted st) (mustPrintLess st) (currentProjectFolder st).

Definition addDeleted (site : DeleteSite) (path : string) (st : State) : State :=
  mkState (fs st) (deleted st ++ [(site, path)]) (mustPrintLess st)
    (currentProjectFolder st).

(** A computation runs from a state to an outcome and the state reached;
    a throw keeps the effects that came before it. *)
Definition M (A : Type) : Type := State -> Outcome A * State.

Definition ret {A} (a : A) : M A := fun st => (Returned a, st).

Definition throw {A} (e : Exn) : M A := fun st => (Thrown e, st).

Definition bind {A B} (c : M A) (k : A -> M B) : M B :=
  fun st =>
    match c st with
    | (Returned a, st') => k a st'
    | (Thrown e, st') => (Thrown e, st')
    end.

Definition liftOutcome {A} (o : Outcome A) : M A := fun st => (o, st).

(** Sequencing for the functions that only read the disk. *)
Definition obind {A B} (o : Outcome A) (k : A -> Outcome B) : Outcome B :=
  match o with
  | Returned a => k a
  | Thrown e => Thrown e
  end.

(** Run a reader of the disk on the current state. *)
Definition reading {A} (f : FS -> Outcome A) : M A := fun st => (f (fs st), st).

(** A method call on the result of [listFiles]: [undefined] has none. *)
Definition requireArray {A} (v : option (list A)) : Outcome (list A) :=
  match v with
  | Some a => Returned a
  | None => Thrown (TypeError "Cannot read properties of undefined")
  end.

(** Enter a call of [deletePathNode] in the history. *)
Definition noteDeletion (site : DeleteSite) (path : string) : M unit :=
  fun st => (Returned tt, addDeleted site path st).

(** Read the disk. *)
Definition withFs {A} (f : FS -> A) : M A := fun st => (Returned (f (fs st)), st).

Declare Scope js_scope.
Delimit Scope js_scope with js.
Notation "x <- c ;; k" := (bind c (fun x => k))
  (at level 61, c at next level, right associativity) : js_scope.
Notation "c ;;; k" := (bind c (fun _ => k))
  (at level 61, right associativity) : js_scope.
Notation "x <~ o ;; k" := (obind o (fun x => k))
  (at level 61, o at next level, right associativity) : js_scope.
Open Scope js_scope.

(** The parts of Node.js the program calls and this development takes
    as given:
    - the [path] module ([path_resolve1] is [path.resolve] of one
      argument, [path_basename_ext] is [path.basename] of two);
    - [process.platform === "win32"], [process.cwd()] and [__dirname];
    - [fs.realpathSync], [None] where it throws, and the clock behind
      the time stamp of a written file;
    - [rm_throws], for [fs.unlinkSync] and [fs.rmdirSync]: [Some d']
      where the deletion of the path throws and leaves the disk [d'],
      [None] where it goes through;
    - [shell.exec], as the exit code and the standard output;
    - [JSON.parse] and [JSON.stringify] on an index: the text of a
      cache file holds an array of inclusion entries or does not parse
      ([None]), and the empty text does not parse;
    - the regular-expression engine on the three patterns of the source
      scanner: the matches of the two global patterns, and the first
      groups that the loop over [exec] yields for the third. *)
Class NodeEnv := {
  path_sep : ascii;
  path_join : string -> string -> string;
  path_resolve1 : string -> string;
  path_resolve : string -> string -> string;
  path_dirname : string -> string;
  path_basename : string -> string;
  path_basename_ext : string -> string -> string;
  path_extname : string -> string;
  path_relative : string -> string -> string;
  process_platform_win32 : bool;
  process_cwd : string;
  __dirname : string;
  realpathSync : FS -> string -> option string;
  clock : FS -> Z;
  rm_throws : FS -> string -> option FS;
  shell_exec : FS -> string -> Z * string;
  JSON_parse : string -> option (list LibraryRecord);
  JSON_parse_empty : JSON_parse "" = None;
  JSON_stringify : list LibraryRecord -> string;
  match_importClassFqnPattern : string -> list string;
  match_inlineClassFqnPattern : string -> list string;
  exec_xmlnsImportClassPattern : string -> list string
}.

(** ** [fs] on the modelled disk *)

Module Fs.
Section Fs.
Context {env : NodeEnv}.

Definition existsSync (d : FS) (p : string) : bool :=
  match d p with Some _ => true | None => false end.

(** [fs.statSync(p).isDirectory()]; [None] where [statSync] throws. *)
Definition statIsDirectory (d : FS) (p : string) : option bool :=
  match d p with
  | Some (Dir _ _) => Some true
  | Some (File _ _) => Some false
  | None => None
  end.

(** [fs.statSync(p).mtime.getTime()] *)
Definition statMtime (d : FS) (p : string) : option Z :=
  match d p with
  | Some (Dir _ t) => Some t
  | Some (File _ t) => Some t
  | None => None
  end.

Definition readdirSync (d : FS) (p : string) : option (list string) :=
  match d p with Some (Dir names _) => Some names | _ => None end.

Definition readFileSync (d : FS) (p : string) : option string :=
  match d p with Some (File c _) => Some c | _ => None end.

Definition addEntry (name : string) (n : Node) : Node :=
  match n with
  | Dir names t => if Js.arrayIncludes name names then n else Dir (names ++ [name])%list t
  | _ => n
  end.

Definition dropEntry (name : string) (n : Node) : Node :=
  match n with
  | Dir names t => Dir (filter (fun x => negb (String.eqb x name)) names) t
  | _ => n
  end.

(** [fs.writeFileSync(p, data)]: throws on a directory and where the
    containing directory is missing. *)
Definition writeFileSync (d : FS) (p data : string) : option FS :=
  match d p, d (path_dirname p) with
  | Some (Dir _ _), _ => None
  | _, Some (Dir _ _) =>
      Some (fun q =>
              if String.eqb q p then Some (File data (clock d))
              else if String.eqb q (path_dirname p)
                   then option_map (addEntry (path_basename p)) (d q)
                   else d q)
  | _, _ => None
  end.

(** [fs.unlinkSync(p)] on an existing file. *)
Definition unlinkSync (d : FS) (p : string) : FS :=
  fun q =>
    if String.eqb q p then None
    else if String.eqb q (path_dirname p)
         then option_map (dropEntry (path_basename p)) (d q)
         else d q.

(** [fs.rmdirSync(p, { recursive: true })]: the directory and every
    path below it. *)
Definition rmdirSyncRecursive (d : FS) (p : string) : FS :=
  fun q =>
    if String.eqb q p || String.prefix (p ++ String path_sep EmptyString) q then None
    else if String.eqb q (path_dirname p)
         then option_map (dropEntry (path_basename p)) (d q)
         else d q.
End Fs.
End Fs.

(** ** [sirius_modules/string_utils.js] *)

Module StringUtils.

(** [capitalize]: the argument is a string here. *)
Definition capitalize (s : string) : string :=
  match s with
  | EmptyString => EmptyString
  | String c r => String (Js.upperChar c) r
  end.

(** [smartQuotePath]: the argument is a string here, so the failure
    branch is the empty path. *)
Definition smartQuotePath (path : string) : string :=
  if negb (String.eqb path "") then
    if Js.includes " " path
       || (Js.includes Js.quote path
           && negb (String.prefix Js.quote path)
           && negb (match Js.lastChar path with
                    | Some c => Ascii.eqb c (ascii_of_nat 34)
                    | None => false
                    end))
    then Js.quote ++ Js.replaceAll Js.quote (Js.chr 92 ++ Js.quote) path ++ Js.quote
    else path
  else Js.quote ++ Js.quote.

End StringUtils.

(** ** [sirius_modules/file_management_utils.js] *)

Module FileManagementUtils.
Section FileManagementUtils.
Context {env : NodeEnv}.

(** [isDirectory]: [false] where [lstatSync] throws. *)
Definition isDirectory (d : FS) (filePath : string) : bool :=
  match Fs.statIsDirectory d filePath with
  | Some b => b
  | None => false
  end.

Definition makeRelative (subPath folder : string) : string :=
  let relativePath := path_relative folder subPath in
  Js.join "/" (Js.split path_sep relativePath).

(** [deletePathNode]: a deletion that throws is caught, and the call
    returns all the same with the disk the failed deletion left. The
    messages written straight to the console are not part of the
    state. *)
Definition deletePathNode (path : string) : M unit :=
  fun st =>
    if Fs.existsSync (fs st) path then
      match rm_throws (fs st) path with
      | Some d' => (Returned tt, setFs d' st)
      | None =>
          if isDirectory (fs st) path
          then (Returned tt, setFs (Fs.rmdirSyncRecursive (fs st) path) st)
          else (Returned tt, setFs (Fs.unlinkSync (fs st) path) st)
      end
    else (Returned tt, st).

Definition cutOffExtension (filePath : string) : string :=
  path_dirname filePath ++ "/" ++ path_basename_ext filePath (path_extname filePath).

(** [pathsAreEqual]: [false] where [realpathSync] throws. *)
Definition pathsAreEqual (d : FS) (path1 path2 : string) : bool :=
  match realpathSync d (path_resolve1 path1), realpathSync d (path_resolve1 path2) with
  | Some p1, Some p2 =>
      if process_platform_win32
      then String.eqb (Js.toLowerCase p1) (Js.toLowerCase p2)
      else String.eqb p1 p2
  | _, _ => false
  end.

(** [readFileHeader]: the empty string on an error. *)
Definition readFileHeader (d : FS) (filePath : string) (headerSize : nat) : string :=
  match Fs.readFileSync d filePath with
  | Some content => String.substring 0 headerSize content
  | None => ""
  end.

(** *** [listFiles] and its internal functions *)

Definition FOLDERS_ONLY := "FOLDERS_ONLY".
Definition FILES_ONLY := "FILES_ONLY".
Definition NO_DOT_NAMES := "NO_DOT_NAMES".
Definition EXCLUSIONS := [FOLDERS_ONLY; FILES_ONLY; NO_DOT_NAMES].

(** The accumulator [allPaths] is threaded through the walk and is the
    second component of the result, also when the walk throws. *)
Fixpoint walkEntries (walk : string -> list string -> Outcome unit * list string)
    (d : FS) (currentDir : string) (filesInDir allPaths : list string)
    : Outcome unit * list string :=
  match filesInDir with
  | [] => (Returned tt, allPaths)
  | file :: rest =>
      let filePath := path_join currentDir file in
      let allPaths := (allPaths ++ [filePath])%list in
      match Fs.statIsDirectory d filePath with
      | None => (Thrown (SystemError "ENOENT"), allPaths)
      | Some true =>
          match walk filePath allPaths with
          | (Returned _, allPaths') => walkEntries walk d currentDir rest allPaths'
          | (Thrown e, allPaths') => (Thrown e, allPaths')
          end
      | Some false => walkEntries walk d currentDir rest allPaths
      end
  end.

(** [walkSync]: [depth] bounds the nesting of calls; beyond it the
    call stack is exhausted. *)
Fixpoint walkSync (depth : nat) (d : FS) (currentDir : string) (allPaths : list string)
    : Outcome unit * list string :=
  match depth with
  | O => (Thrown RangeError, allPaths)
  | S depth' =>
      match Fs.readdirSync d currentDir with
      | None => (Thrown (SystemError "ENOTDIR"), allPaths)
      | Some filesInDir => walkEntries (walkSync depth' d) d currentDir filesInDir allPaths
      end
  end.

Definition isLineTerminator (c : ascii) : bool :=
  let n := nat_of_ascii c in ((n =? 10) || (n =? 13))%nat.

(** [searchWithWildcards]: the expression [wildcardToRegex] builds is
    anchored at both ends, [*] stands for [.*] and [?] for [.]; every
    other character of the pattern is escaped and stands for itself
    (patterns are taken not to spell the two place-holder words). *)
Fixpoint searchWithWildcards_ (pattern text : string) : bool :=
  match pattern with
  | EmptyString => match text with EmptyString => true | _ => false end
  | String p pattern' =>
      if Ascii.eqb p "*"%char then
        (fix anyChars (t : string) : bool :=
           searchWithWildcards_ pattern' t
           || match t with
              | String c t' => negb (isLineTerminator c) && anyChars t'
              | EmptyString => false
              end) text
      else
        match text with
        | String c text' =>
            (if Ascii.eqb p "?"%char then negb (isLineTerminator c) else Ascii.eqb p c)
            && searchWithWildcards_ pattern' text'
        | EmptyString => false
        end
  end.

Definition searchWithWildcards (text pattern : string) : bool :=
  searchWithWildcards_ pattern text.

Definition startsWithDot (absolutePath : string) : bool :=
  String.prefix "." (path_basename absolutePath).

Definition getSearchPatterns (filters : list string) : list string :=
  filter (fun item => negb (Js.arrayIncludes item EXCLUSIONS)) filters.

Definition filterPaths (d : FS) (filters : list string) (filePath : string) : bool :=
  let mustExcludeFiles := Js.arrayIncludes FOLDERS_ONLY filters in
  let mustExcludeFolders := Js.arrayIncludes FILES_ONLY filters in
  let mustExludeDotNames := Js.arrayIncludes NO_DOT_NAMES filters in
  let isDir := isDirectory d filePath in
  if isDir && mustExcludeFolders then false
  else if negb isDir && mustExcludeFiles then false
  else if startsWithDot filePath && mustExludeDotNames then false
  else
    let patterns := getSearchPatterns filters in
    match patterns with
    | _ :: _ => existsb (fun pattern => searchWithWildcards filePath pattern) patterns
    | [] => true
    end.

Definition refinePaths (folder : string) (useRelativePaths dropExtension : bool)
    (filePath : string) : string :=
  let filePath := if useRelativePaths then makeRelative filePath folder else filePath in
  if dropExtension then cutOffExtension filePath else filePath.

(** The body of the [try] block. [allPaths] is declared [const], so each
    of the two assignments throws once its right-hand side is
    evaluated. *)
Definition listFiles_main (depth : nat) (d : FS) (folder : string) (filters : list string)
    (useRelativePaths dropExtension : bool) : Outcome unit :=
  match walkSync depth d folder [] with
  | (Thrown e, _) => Thrown e
  | (Returned _, allPaths) =>
      match filters with
      | _ :: _ =>
          let _ := filter (filterPaths d filters) allPaths in
          Thrown (TypeError "Assignment to constant variable.")
      | [] =>
          if useRelativePaths || dropExtension then
            let _ := map (refinePaths folder useRelativePaths dropExtension) allPaths in
            Thrown (TypeError "Assignment to constant variable.")
          else Returned tt
      end
  end.

(** [listFiles]: [Some a] is the array [a], [None] is [undefined]. An
    invalid folder returns the empty array; otherwise the [try] block
    runs, its exception is caught and reported, and the body ends
    without a [return]. *)
Definition listFiles (depth : nat) (d : FS) (folder : string) (filters : list string)
    (useRelativePaths dropExtension : bool) : option (list string) :=
  if negb (Fs.existsSync d folder) || negb (isDirectory d folder) then Some []
  else
    match listFiles_main depth d folder filters useRelativePaths dropExtension with
    | Returned _ => None
    | Thrown _ => None
    end.

End FileManagementUtils.
End FileManagementUtils.

(** ** [sirius.js.old] *)

Module Sirius.

(** *** The pattern [swcDefPattern] and its global form

    The opening text [<def id=] with a double quote, a non-empty run
    of characters other than the double quote (group 1), the double
    quote, a non-empty run of white space, and the closing [/>]. Both runs end
    where the next character is forced, so a position has at most one
    match. *)
Module SwcDef.

Definition opening : string := "<def id=" ++ Js.quote.

Fixpoint spanId (s : string) : string * string :=
  match s with
  | EmptyString => (EmptyString, EmptyString)
  | String c r =>
      if Ascii.eqb c (ascii_of_nat 34) then (EmptyString, s)
      else let (id, rest) := spanId r in (String c id, rest)
  end.

Fixpoint spanSpace (s : string) : nat * string :=
  match s with
  | EmptyString => (O, EmptyString)
  | String c r =>
      if Js.isSpace c then let (k, rest) := spanSpace r in (S k, rest)
      else (O, s)
  end.

(** A match that starts at the head of [s]: its length and group 1. *)
Definition matchHere (s : string) : option (nat * string) :=
  if String.prefix opening s then
    let (id, r1) := spanId (Js.skip (String.length opening) s) in
    match id, r1 with
    | String _ _, String _ r2 =>
        let (k, r3) := spanSpace r2 in
        if Nat.ltb 0 k && String.prefix "/>" r3
        then Some (String.length opening + String.length id + 1 + k + 2, id)%nat
        else None
    | _, _ => None
    end
  else None.

(** The matches of the global pattern, left to right; [hold] counts the
    characters of the last match still to be passed. *)
Fixpoint matchesFrom (hold : nat) (s : string) : list string :=
  match s with
  | EmptyString => []
  | String _ r =>
      match hold with
      | S h => matchesFrom h r
      | O =>
          match matchHere s with
          | Some (len, _) => String.substring 0 len s :: matchesFrom (len - 1) r
          | None => matchesFrom O r
          end
      end
  end.

(** [s.match(globalSwcDefPattern)]: [None] is [null], the result where
    nothing matches. *)
Definition matchGlobal (s : string) : option (list string) :=
  match matchesFrom 0 s with
  | [] => None
  | ms => Some ms
  end.

(** [s.match(swcDefPattern)]: group 1 of the first match, [None] is
    [null]. *)
Fixpoint matchFirst (s : string) : option string :=
  match matchHere s with
  | Some (_, id) => Some id
  | None =>
      match s with
      | EmptyString => None
      | String _ r => matchFirst r
      end
  end.

End SwcDef.

(** *** Constants *)

Definition sourceFileTypes := ["as"; "mxml"; "fxg"].
Definition mxmlFileType := ["mxml"].
Definition swcFileType := ["swc"].
Definition swfFileType := ["swf"].
Definition allFilesType := ["*.*"].
Definition allFoldersType := ["**"].
Definition sourceFolderPath := "src".
Definition binFolderPath := "bin".
Definition libFolderPath := "lib".
Definition inclusionsFileName := "sirius.inclusions.cache".
Definition lookIntoZipCmd := "tar -xOf %s catalog.xml".
Definition mxmlHeaderSize := 180%nat.
Definition mxApplicationTag := "<mx:WindowedApplication".
Definition sApplicationTag := "<s:WindowedApplication".
Definition unitTestingAppPrefix := "FlexUnit".
Definition unitTestingClassPrefix := "flexUnitTests".

(** *** [$print]

    The body decides whether the call is muted, assembles the colored
    argument list and ends there: it has no output statement, so a
    call leaves the state as it was. [assembled] is the list the body
    ends with, [None] for a call that returns early. *)

Definition RESET := Js.esc ++ "[0m".
Definition FG_CYAN := Js.esc ++ "[36m".
Definition FG_MAGENTA := Js.esc ++ "[35m".

(** [/^\s*\[[eIW]\]/.test(s)] *)
Definition UNMUTEABLE_MARKER (s : string) : bool :=
  let r := Js.trimStart s in
  String.prefix "[e]" r || String.prefix "[I]" r || String.prefix "[W]" r.

Definition colorize (arg : string) : string :=
  Js.replaceAll "[I]" (RESET ++ "[i]")
    (Js.replaceAll "[i]" (RESET ++ "[i]")
       (Js.replaceAll "[w]" (FG_CYAN ++ "[w]")
          (Js.replaceAll "[e]" (FG_MAGENTA ++ "[e]") arg))).

Definition assemble (args : list string) : list string :=
  (map colorize args ++ [RESET])%list.

Definition assembled (quiet : bool) (args : list string) : option (list string) :=
  match args with
  | [] => None
  | first :: others =>
      if quiet then
        if negb (UNMUTEABLE_MARKER first) then None
        else Some (assemble (Js.trimStart first :: others))
      else Some (assemble args)
  end.

Definition print_ (args : list string) : M unit :=
  fun st => let _ := assembled (mustPrintLess st) args in (Returned tt, st).

(** *** Names *)

Definition isAlnum (c : ascii) : bool :=
  Js.isWordChar c && negb (Ascii.eqb c "_"%char).

(** [s.replace(/[\W_]+/g, '-')]: [inRun] holds inside a run of
    characters that are not letters or digits. *)
Fixpoint collapseRuns (inRun : bool) (s : string) : string :=
  match s with
  | EmptyString => EmptyString
  | String c r =>
      if isAlnum c then String c (collapseRuns false r)
      else if inRun then collapseRuns true r
           else String "-"%char (collapseRuns true r)
  end.

Definition toBinaryFileName (rawName : string) : string :=
  collapseRuns false (Js.toLowerCase (Js.trim rawName)).

(** [s.replace(/[\W_]+/g, ' ')] *)
Fixpoint spaceRuns (inRun : bool) (s : string) : string :=
  match s with
  | EmptyString => EmptyString
  | String c r =>
      if isAlnum c then String c (spaceRuns false r)
      else if inRun then spaceRuns true r
           else String " "%char (spaceRuns true r)
  end.

Definition toProjectSafeName (rawName : string) : string :=
  let segments := Js.split " "%char (spaceRuns false (Js.toLowerCase (Js.trim rawName))) in
  let segments := map StringUtils.capitalize segments in
  Js.join " " segments.

Definition truthy (s : string) : bool := negb (String.eqb s "").

Section Resolver.
Context {env : NodeEnv}.

(** The export [listFiles] of [file_management_utils], as this file
    calls it: [None] is [undefined]. *)
Variable listFiles : FS -> string -> list string -> bool -> bool -> option (list string).

Definition listFolders (d : FS) (parentFolder : string) : option (list string) :=
  listFiles d parentFolder [FileManagementUtils.FOLDERS_ONLY] false false.

(** *** [getProjectApplications] *)

Fixpoint collectApplications (d : FS) (mxmlFiles : list string)
    : Outcome (list (string * Z)) :=
  match mxmlFiles with
  | [] => Returned []
  | mxmlFile :: rest =>
      let mxmlHeader := FileManagementUtils.readFileHeader d mxmlFile mxmlHeaderSize in
      if Js.includes mxApplicationTag mxmlHeader || Js.includes sApplicationTag mxmlHeader then
        match Fs.statMtime d mxmlFile with
        | None => Thrown (SystemError "ENOENT")
        | Some t =>
            apps <~ collectApplications d rest ;;
            Returned ((mxmlFile, t) :: apps)
        end
      else collectApplications d rest
  end.

Definition getProjectApplications (sourceFolder : string) (d : FS) : Outcome (list string) :=
  projectApplications <~
    (if Fs.existsSync d sourceFolder then
       listed <~ requireArray (listFiles d sourceFolder mxmlFileType false false) ;;
       let mxmlFiles :=
         filter (fun mxmlFile =>
                   let appFileName := path_basename_ext mxmlFile (path_extname mxmlFile) in
                   negb (Js.includes unitTestingAppPrefix appFileName)) listed in
       collectApplications d mxmlFiles
     else Returned []) ;;
  Returned (map fst (Js.sortBy (fun appA appB => (snd appB - snd appA <=? 0)%Z)
                       projectApplications)).

(** *** [listClassImports] *)

Definition pushNew (fqn : string) (fqns : list string) : list string :=
  if Js.arrayIncludes fqn fqns then fqns else (fqns ++ [fqn])%list.

Definition lastOr (default : string) (a : list string) : string :=
  match Js.pop a with Some x => x | None => default end.

Definition scanFile (filePath fileContent : string) (fqns : list string) : list string :=
  let fqns :=
    fold_left (fun fqns rawFqn => pushNew (lastOr "" (Js.split " " rawFqn)) fqns)
      (match_importClassFqnPattern fileContent) fqns in
  let fqns :=
    fold_left (fun fqns rawFqn => pushNew (Js.replaceFirst ":" "." rawFqn) fqns)
      (match_inlineClassFqnPattern fileContent) fqns in
  let fileExtension := lastOr "" (Js.split "." (path_extname filePath)) in
  if String.eqb fileExtension (Js.at0 mxmlFileType) then
    fold_left (fun fqns group1 =>
                 if truthy group1 && truthy (Js.trim group1) then pushNew group1 fqns else fqns)
      (exec_xmlnsImportClassPattern fileContent) fqns
  else fqns.

Fixpoint scanFiles (d : FS) (sourceFilesInFolder fqns : list string) : Outcome (list string) :=
  match sourceFilesInFolder with
  | [] => Returned fqns
  | filePath :: rest =>
      match Fs.readFileSync d filePath with
      | None => Thrown (SystemError "readFileSync")
      | Some fileContent => scanFiles d rest (scanFile filePath fileContent fqns)
      end
  end.

Definition listClassImports (folder : string) (d : FS) : Outcome (list string) :=
  sourceFilesInFolder <~ requireArray (listFiles d folder sourceFileTypes false false) ;;
  fqns <~ scanFiles d sourceFilesInFolder [] ;;
  Returned (Js.sort fqns).

(** *** [consolidateInclusions] *)

Definition count (classes : option (list string)) : Z :=
  match classes with Some a => Z.of_nat (List.length a) | None => 0%Z end.

Definition compareInclusions (inclusionA inclusionB : LibraryRecord) : Z :=
  let swcClassesDelta := (count (swcClasses inclusionA) - count (swcClasses inclusionB))%Z in
  let globalSwcClassesDelta :=
    (count (globalSwcClasses inclusionA) - count (globalSwcClasses inclusionB))%Z in
  if (swcClassesDelta =? 0)%Z then globalSwcClassesDelta else swcClassesDelta.

Definition consolidateInclusions (inclusionEntry : LibraryRecord)
    (inclusions : list LibraryRecord) : list LibraryRecord :=
  let inclusions :=
    if (0 <? count (swcClasses inclusionEntry))%Z
       || (0 <? count (globalSwcClasses inclusionEntry))%Z
    then (inclusions ++ [inclusionEntry])%list
    else inclusions in
  Js.sortBy (fun a b => (compareInclusions a b <=? 0)%Z) inclusions.

(** *** [readSwcClasses] *)

Fixpoint defIds (matches : list string) : Outcome (list string) :=
  match matches with
  | [] => Returned []
  | def :: rest =>
      match SwcDef.matchFirst def with
      | None => Thrown (TypeError "Cannot read properties of null (reading '1')")
      | Some id =>
          ids <~ defIds rest ;;
          Returned (Js.replaceFirst ":" "." id :: ids)
      end
  end.

Definition readSwcClasses (swcPath : string) (d : FS) : Outcome (list string) :=
  let shellCmd := Js.replaceFirst "%s" (StringUtils.smartQuotePath swcPath) lookIntoZipCmd in
  let result := shell_exec d shellCmd in
  if (fst result =? 0)%Z then
    match SwcDef.matchGlobal (snd result) with
    | None => Thrown (TypeError "Cannot read properties of null (reading 'map')")
    | Some matches =>
        ids <~ defIds matches ;;
        Returned (filter (fun def => negb (match Js.firstChar def with
                                          | Some c => Ascii.eqb c "_"%char
                                          | None => false
                                          end)) ids)
    end
  else Returned [].

(** *** [getMatchingSWCs] *)

Inductive Field := swcClassesField | globalSwcClassesField.

Definition fieldOf (searchField : Field) (record : LibraryRecord) : option (list string) :=
  match searchField with
  | swcClassesField => swcClasses record
  | globalSwcClassesField => globalSwcClasses record
  end.

Definition havePartialFqn (fqn : string) : bool :=
  match Js.lastChar fqn with
  | Some c => Ascii.eqb c "*"%char
  | None => false
  end.

Definition partialFqnOf (fqn : string) : string :=
  Js.join "." (Js.dropLast (Js.split "." fqn)).

(** The callback of [inclusions.filter]. *)
Definition recordMatches (searchField : Field) (fqn : string) (record : LibraryRecord)
    : Outcome bool :=
  if havePartialFqn fqn then
    let partialFqn := partialFqnOf fqn in
    match fieldOf searchField record with
    | None => Thrown (TypeError "Cannot read properties of undefined (reading 'filter')")
    | Some testFQNs =>
        let partialMatches :=
          filter (fun testFQN => Js.startsWith partialFqn testFQN) testFQNs in
        Returned (Nat.ltb 0 (List.length partialMatches))
    end
  else
    Returned (match fieldOf searchField record with
              | Some classes => Js.arrayIncludes fqn classes
              | None => false
              end).

Fixpoint filterRecords (searchField : Field) (fqn : string) (inclusions : list LibraryRecord)
    : Outcome (list LibraryRecord) :=
  match inclusions with
  | [] => Returned []
  | record :: rest =>
      keep <~ recordMatches searchField fqn record ;;
      kept <~ filterRecords searchField fqn rest ;;
      Returned (if keep then record :: kept else kept)
  end.

Definition collisionWarning (fqn : string) (matchingSWCs : list string) : string :=
  "[w] This SWCs all contain a class named " ++ Js.quote ++ fqn ++ Js.quote ++ ":" ++ Js.nl
  ++ Js.join Js.nl matchingSWCs ++ "." ++ Js.nl
  ++ "This is likely to cause issues and should be addressed if possible. Only the first SWC will be included."
  ++ Js.nl ++ "Continuing.".

Definition pushMatches (matchingSWCs swcPaths : list string) : list string :=
  fold_left (fun swcPaths match_ =>
               if truthy match_ && negb (Js.arrayIncludes match_ swcPaths)
               then (swcPaths ++ [match_])%list else swcPaths)
    matchingSWCs swcPaths.

(** The callback of [classFQNs.forEach]. *)
Definition resolveFqn (inclusions : list LibraryRecord) (searchField : Field)
    (fqn : string) (swcPaths : list string) : M (list string) :=
  matching <- liftOutcome (filterRecords searchField fqn inclusions) ;;
  let matchingSWCs := map swcPath matching in
  matchingSWCs <-
    (if negb (havePartialFqn fqn) && Nat.ltb 1 (List.length matchingSWCs)
     then print_ [collisionWarning fqn matchingSWCs] ;;; ret (firstn 1 matchingSWCs)
     else ret matchingSWCs) ;;
  ret (pushMatches matchingSWCs swcPaths).

Fixpoint resolveFqns (inclusions : list LibraryRecord) (searchField : Field)
    (classFQNs swcPaths : list string) : M (list string) :=
  match classFQNs with
  | [] => ret swcPaths
  | fqn :: rest =>
      swcPaths <- resolveFqn inclusions searchField fqn swcPaths ;;
      resolveFqns inclusions searchField rest swcPaths
  end.

Definition getMatchingSWCs (inclusions : list LibraryRecord) (classFQNs : list string)
    (searchField : option Field) : M (list string) :=
  match inclusions, classFQNs with
  | [], _ => ret []
  | _, [] => ret []
  | _, _ =>
      let searchField :=
        match searchField with Some f => f | None => swcClassesField end in
      swcPaths <- resolveFqns inclusions searchField classFQNs [] ;;
      ret (rev (Js.sort swcPaths))
  end.

(** *** [getSrcFolderOf] and [getWorkspacePaths] *)

Definition severalSrcWarning (projectFolder : string) (allFolders : list string) : string :=
  Js.nl ++ "[w] Found several directories named " ++ Js.quote ++ "src" ++ Js.quote
  ++ " inside directory " ++ Js.quote ++ projectFolder ++ Js.quote ++ ":" ++ Js.nl ++ Js.nl
  ++ Js.tab ++ Js.join (Js.nl ++ Js.tab) allFolders ++ Js.nl ++ Js.nl
  ++ "There should be exactly one " ++ Js.quote ++ "src" ++ Js.quote
  ++ " directory inside any given project directory, and project directories should live directly under the WORKSPACE directory."
  ++ Js.nl ++ "Continuing.".

(** [None] is [null] or [undefined]. *)
Definition getSrcFolderOf (projectFolder : string) (bypassWarning : bool)
    : M (option string) :=
  fun st =>
    if Fs.existsSync (fs st) projectFolder then
      (listed <- liftOutcome
                   (requireArray (listFiles (fs st) projectFolder allFoldersType false false)) ;;
       let allFolders :=
         Js.sortBy (fun pathA pathB => Nat.leb (String.length pathA) (String.length pathB))
           (filter (fun folderPath =>
                      String.eqb (path_basename folderPath) sourceFolderPath) listed) in
       (if Nat.ltb 1 (List.length allFolders) && negb bypassWarning
        then print_ [severalSrcWarning projectFolder allFolders]
        else ret tt) ;;;
       ret (nth_error allFolders 0)) st
    else (Returned None, st).

Definition getSiriusFolder : string := __dirname.

Definition getWorkspacePaths (targetFolder : string) : string * option string :=
  let targetFolder := if truthy targetFolder then targetFolder else process_cwd in
  let siriusFolder := getSiriusFolder in
  let workspaceParentDir := path_resolve siriusFolder "../../" in
  let workspacePath := path_dirname targetFolder in
  let safeProjectFolder := Js.toLowerCase targetFolder in
  let safeWorkspaceParentDir := Js.toLowerCase workspaceParentDir in
  if Js.startsWith safeWorkspaceParentDir safeProjectFolder then
    let relWorkspacePathSegments :=
      filter (fun pathSegment => negb (String.eqb (Js.trim pathSegment) ""))
        (Js.split path_sep (Js.replaceFirst safeWorkspaceParentDir "" safeProjectFolder)) in
    let projectFolderBase := nth_error relWorkspacePathSegments 1 in
    match nth_error relWorkspacePathSegments 0 with
    | Some relWorkspacePath =>
        if truthy relWorkspacePath
        then (path_resolve workspaceParentDir relWorkspacePath, projectFolderBase)
        else (workspacePath, projectFolderBase)
    | None => (workspacePath, projectFolderBase)
    end
  else (workspacePath, None).

(** *** [getInclusionsMap] *)

Definition getClassesFQNames (classFiles : list string) : list string :=
  map (fun filePath => Js.join "." (Js.split path_sep filePath)) classFiles.

Definition natToString (n : nat) : string := NilEmpty.string_of_uint (Nat.to_uint n).

Definition reusedMessage (cachedInclusionsFile : string) : string :=
  Js.nl ++ "[i] Reused cached inclusions map form " ++ Js.quote ++ cachedInclusionsFile
  ++ Js.quote ++ ".".

Definition corruptedMessage (cachedInclusionsFile : string) : string :=
  "[w] Failed to parse cached inclusions file " ++ Js.quote ++ cachedInclusionsFile
  ++ Js.quote ++ ". Will rebuild inclusions map. Continuing.".

Definition wroteMessage (cachedInclusionsFile : string) : string :=
  Js.nl ++ "[i] Wrote inclusions map cache to file " ++ Js.quote ++ cachedInclusionsFile
  ++ Js.quote ++ ".".

Definition globalClassesWarning (projectFolder : string) (globalClasses : list string)
    : list string :=
  [ Js.nl ++ "[w] Found";
    natToString (List.length globalClasses);
    if Nat.ltb 1 (List.length globalClasses) then "classes" else "class";
    "in the global package inside library project " ++ Js.quote ++ projectFolder ++ Js.quote
    ++ ":" ++ Js.nl ++ Js.tab ++ Js.join (Js.nl ++ Js.tab) globalClasses ++ Js.nl
    ++ "This is bad practice. Those classes should be given fully qualified names."
    ++ Js.nl ++ "Continuing." ].

Definition unless (silentMode : bool) (c : M unit) : M unit :=
  if silentMode then ret tt else c.

(** The callback of [libFiles.forEach]. *)
Fixpoint indexSwcFiles (d : FS) (libFiles : list string) (inclusions : list LibraryRecord)
    : Outcome (list LibraryRecord) :=
  match libFiles with
  | [] => Returned inclusions
  | swcPath :: rest =>
      classes <~ readSwcClasses swcPath d ;;
      let inclusionEntry := mkRecord swcPath (Some classes) None in
      indexSwcFiles d rest (consolidateInclusions inclusionEntry inclusions)
  end.

(** One turn of the loop over [workspaceDirs]. *)
Definition indexProject (silentMode : bool) (dirPath : string)
    (inclusions : list LibraryRecord) : M (list LibraryRecord) :=
  let libFolder := path_resolve dirPath libFolderPath in
  inclusions <-
    reading (fun d =>
      if truthy libFolder && Fs.existsSync d libFolder then
        libFiles <~ requireArray (listFiles d libFolder swcFileType false false) ;;
        indexSwcFiles d libFiles inclusions
      else Returned inclusions) ;;
  let dirName := path_basename dirPath in
  let swcName := toBinaryFileName dirName ++ "." ++ Js.at0 swcFileType in
  current <- (fun st =>
                match currentProjectFolder st with
                | Some folder => (Returned folder, st)
                | None => (Thrown (TypeError "Cannot read properties of null (reading 'toLowerCase')"), st)
                end) ;;
  let isInsideCurrentProject :=
    Js.startsWith (Js.toLowerCase dirPath) (Js.toLowerCase current) in
  found <- getSrcFolderOf dirPath (isInsideCurrentProject || silentMode) ;;
  match found with
  | None => ret inclusions
  | Some sourceFolder =>
      present <- withFs (fun d => Fs.existsSync d sourceFolder) ;;
      if truthy sourceFolder && present then
        let projectFolder := path_dirname sourceFolder in
        projectsApps <- reading (getProjectApplications sourceFolder) ;;
        match projectsApps with
        | _ :: _ => ret inclusions
        | [] =>
            let swcPath := path_join (path_join dirPath binFolderPath) swcName in
            classFiles <- reading (fun d =>
                            requireArray (listFiles d sourceFolder sourceFileTypes true true)) ;;
            let classFQNames := getClassesFQNames classFiles in
            let qualified :=
              filter (fun className =>
                        Js.includes "." className
                        && negb (Js.includes unitTestingClassPrefix className)) classFQNames in
            let unqualified :=
              filter (fun className =>
                        negb (Js.includes "." className)
                        && negb (Js.includes unitTestingAppPrefix className)) classFQNames in
            let inclusionEntry := mkRecord swcPath (Some qualified) (Some unqualified) in
            (match unqualified with
             | _ :: _ => unless silentMode (print_ (globalClassesWarning projectFolder unqualified))
             | [] => ret tt
             end) ;;;
            ret (consolidateInclusions inclusionEntry inclusions)
        end
      else ret inclusions
  end.

Fixpoint indexProjects (silentMode : bool) (workspaceDirs : list string)
    (inclusions : list LibraryRecord) : M (list LibraryRecord) :=
  match workspaceDirs with
  | [] => ret inclusions
  | dirPath :: rest =>
      inclusions <- indexProject silentMode dirPath inclusions ;;
      indexProjects silentMode rest inclusions
  end.

(** The block under the comment Build the inclusions map otherwise. *)
Definition rebuildInclusions (searchPath cachedInclusionsFile : string) (silentMode : bool)
    (inclusions : list LibraryRecord) : M (list LibraryRecord) :=
  workspaceDirs <- reading (fun d => requireArray (listFolders d searchPath)) ;;
  inclusions <- indexProjects silentMode workspaceDirs inclusions ;;
  (fun st =>
     match Fs.writeFileSync (fs st) cachedInclusionsFile (JSON_stringify inclusions) with
     | Some d' => (Returned tt, setFs d' st)
     | None => (Thrown (SystemError "writeFileSync"), st)
     end) ;;;
  unless silentMode (print_ [wroteMessage cachedInclusionsFile]) ;;;
  ret inclusions.

(** The block under the comment Try to reuse cached inclusions map if
    available: the values of [inclusions], [cacheExists] and
    [cacheCorrupted] when it ends. *)
Definition tryCache (cachedInclusionsFile : string) (silentMode : bool)
    : M (list LibraryRecord * bool * bool) :=
  present <- withFs (fun d => Fs.existsSync d cachedInclusionsFile) ;;
  if present then
    content <- reading (fun d =>
                 match Fs.readFileSync d cachedInclusionsFile with
                 | Some text => Returned text
                 | None => Thrown (SystemError "EISDIR")
                 end) ;;
    let cachedInclusions := Js.trim content in
    if truthy cachedInclusions then
      match JSON_parse cachedInclusions with
      | Some parsed =>
          unless silentMode (print_ [reusedMessage cachedInclusionsFile]) ;;;
          ret (parsed, true, false)
      | None =>
          unless silentMode (print_ [corruptedMessage cachedInclusionsFile]) ;;;
          ret ([], true, true)
      end
    else ret ([], true, false)
  else ret ([], false, false).

Definition getInclusionsMap (searchPath : string) (silentMode : bool)
    : M (list LibraryRecord) :=
  let cachedInclusionsFile := path_resolve searchPath inclusionsFileName in
  flags <- tryCache cachedInclusionsFile silentMode ;;
  let '(inclusions, cacheExists, cacheCorrupted) := flags in
  if negb cacheExists || cacheCorrupted
  then rebuildInclusions searchPath cachedInclusionsFile silentMode inclusions
  else ret inclusions.

(** *** [mustBuildProject] *)

(** The statements under Check dependencies first, up to the loop. *)
Definition externalSWCsOf (projectFolderPath sourceFolder : string) : M (list string) :=
  let workspacePath := fst (getWorkspacePaths projectFolderPath) in
  inclusionsMap <- getInclusionsMap workspacePath true ;;
  externalQualifiedClasses <- reading (listClassImports sourceFolder) ;;
  getMatchingSWCs inclusionsMap externalQualifiedClasses None.

(** The loop over [externalSWCs]; [self] stands for the recursive call. *)
Fixpoint dependenciesMustBuild (self : string -> M bool) (projectFolderPath : string)
    (externalSWCs : list string) : M bool :=
  match externalSWCs with
  | [] => ret false
  | swcPath :: rest =>
      let dependencyPath := path_dirname (path_dirname swcPath) in
      same <- withFs (fun d =>
                FileManagementUtils.pathsAreEqual d dependencyPath projectFolderPath) ;;
      if same then dependenciesMustBuild self projectFolderPath rest
      else
        dirty <- self dependencyPath ;;
        if dirty then ret true
        else dependenciesMustBuild self projectFolderPath rest
  end.

(** The statements that choose [binaryFilePath], the same in
    [mustBuildProject] and in [deleteCache]. *)
Definition binaryFilePathOf (projectFolderPath sourceFolder binFolder : string) (d : FS)
    : Outcome string :=
  apps <~ getProjectApplications sourceFolder d ;;
  match nth_error apps 0 with
  | Some projectActiveApp =>
      if truthy projectActiveApp then
        let projectName :=
          path_basename_ext projectActiveApp (path_extname projectActiveApp) in
        let swfFileName := toBinaryFileName projectName ++ "." ++ Js.at0 swfFileType in
        Returned (path_resolve binFolder swfFileName)
      else
        let projectName := path_basename projectFolderPath in
        let swcFileName := toBinaryFileName projectName ++ "." ++ Js.at0 swcFileType in
        Returned (path_resolve binFolder swcFileName)
  | None =>
      let projectName := path_basename projectFolderPath in
      let swcFileName := toBinaryFileName projectName ++ "." ++ Js.at0 swcFileType in
      Returned (path_resolve binFolder swcFileName)
  end.

(** The loop over [srcFiles]. *)
Fixpoint anyNewer (d : FS) (binaryFileModificationTime : Z) (srcFiles : list string)
    : Outcome bool :=
  match srcFiles with
  | [] => Returned false
  | srcFilePath :: rest =>
      match Fs.statMtime d srcFilePath with
      | None => Thrown (SystemError "ENOENT")
      | Some srcFileModificationTime =>
          if (srcFileModificationTime >? binaryFileModificationTime)%Z then Returned true
          else anyNewer d binaryFileModificationTime rest
      end
  end.

(** The statements under Then check the project itself. *)
Definition ownBinaryIsStale (projectFolderPath sourceFolder binFolder : string) (d : FS)
    : Outcome bool :=
  binaryFilePath <~ binaryFilePathOf projectFolderPath sourceFolder binFolder d ;;
  if negb (truthy binaryFilePath) || negb (Fs.existsSync d binaryFilePath) then Returned true
  else
    match Fs.statMtime d binaryFilePath with
    | None => Thrown (SystemError "ENOENT")
    | Some binaryFileModificationTime =>
        srcFiles <~ requireArray (listFiles d sourceFolder allFilesType false false) ;;
        anyNewer d binaryFileModificationTime srcFiles
    end.

Definition mustBuildProject_body (self : string -> M bool) (projectFolderPath : string)
    : M bool :=
  present <- withFs (fun d => Fs.existsSync d projectFolderPath) ;;
  if truthy projectFolderPath && present then
    found <- getSrcFolderOf projectFolderPath true ;;
    match found with
    | None => ret false
    | Some sourceFolder =>
        srcPresent <- withFs (fun d => Fs.existsSync d sourceFolder) ;;
        if truthy sourceFolder && srcPresent then
          let binFolder := path_resolve (path_dirname sourceFolder) binFolderPath in
          binPresent <- withFs (fun d => Fs.existsSync d binFolder) ;;
          if negb binPresent then ret true
          else
            externalSWCs <- externalSWCsOf projectFolderPath sourceFolder ;;
            dirty <- dependenciesMustBuild self projectFolderPath externalSWCs ;;
            if dirty then ret true
            else reading (ownBinaryIsStale projectFolderPath sourceFolder binFolder)
        else ret false
    end
  else ret false.

(** [depth] bounds the nesting of recursive calls; beyond it the call
    stack is exhausted. *)
Fixpoint mustBuildProject (depth : nat) (projectFolderPath : string) : M bool :=
  match depth with
  | O => throw RangeError
  | S depth' => mustBuildProject_body (mustBuildProject depth') projectFolderPath
  end.

(** *** [deleteCache] *)

Fixpoint deleteDependencies (self : string -> bool -> M unit) (projectFolderPath : string)
    (externalSWCs : list string) : M unit :=
  match externalSWCs with
  | [] => ret tt
  | swcPath :: rest =>
      let dependencyPath := path_dirname (path_dirname swcPath) in
      same <- withFs (fun d =>
                FileManagementUtils.pathsAreEqual d dependencyPath projectFolderPath) ;;
      if same then deleteDependencies self projectFolderPath rest
      else
        self dependencyPath true ;;;
        deleteDependencies self projectFolderPath rest
  end.

(** The statements under Then do the project itself. *)
Definition deleteOwnBinary (projectFolderPath sourceFolder : string) : M unit :=
  let binFolder := path_resolve (path_dirname sourceFolder) binFolderPath in
  binaryFilePath <- reading (binaryFilePathOf projectFolderPath sourceFolder binFolder) ;;
  present <- withFs (fun d => Fs.existsSync d binaryFilePath) ;;
  if truthy binaryFilePath && present then
    print_ [Js.nl ++ "[i] Deleting binary file:"; binaryFilePath] ;;;
    noteDeletion BinaryFile binaryFilePath ;;;
    FileManagementUtils.deletePathNode binaryFilePath
  else ret tt.

(** The statements under Finally, delete the cache file. *)
Definition deleteInclusionsFile (workspacePath : string) : M unit :=
  let cachedInclusionsFile := path_resolve workspacePath inclusionsFileName in
  present <- withFs (fun d => Fs.existsSync d cachedInclusionsFile) ;;
  if present then
    print_ [Js.nl ++ "[i] Deleting cache file:"; cachedInclusionsFile] ;;;
    noteDeletion InclusionsFile cachedInclusionsFile ;;;
    FileManagementUtils.deletePathNode cachedInclusionsFile
  else ret tt.

Definition deleteCache_body (self : string -> bool -> M unit) (projectFolderPath : string)
    (keepInclusionsFile : bool) : M unit :=
  present <- withFs (fun d => Fs.existsSync d projectFolderPath) ;;
  if truthy projectFolderPath && present then
    let workspacePath := fst (getWorkspacePaths projectFolderPath) in
    found <- getSrcFolderOf projectFolderPath true ;;
    (match found with
     | None => ret tt
     | Some sourceFolder =>
         srcPresent <- withFs (fun d => Fs.existsSync d sourceFolder) ;;
         if truthy sourceFolder && srcPresent then
           externalSWCs <- externalSWCsOf projectFolderPath sourceFolder ;;
           deleteDependencies self projectFolderPath externalSWCs ;;;
           deleteOwnBinary projectFolderPath sourceFolder
         else ret tt
     end) ;;;
    if negb keepInclusionsFile then deleteInclusionsFile workspacePath else ret tt
  else ret tt.

Fixpoint deleteCache (depth : nat) (projectFolderPath : string) (keepInclusionsFile : bool)
    : M unit :=
  match depth with
  | O => throw RangeError
  | S depth' => deleteCache_body (deleteCache depth') projectFolderPath keepInclusionsFile
  end.

End Resolver.
End Sirius.

(** ** Vocabulary of the statements *)

Import Sirius.

(** The candidates of an exact class: the records whose searched field
    holds it, in index order. *)
Definition provides (searchField : Field) (fqn : string) (record : LibraryRecord) : bool :=
  match fieldOf searchField record with
  | Some classes => Js.arrayIncludes fqn classes
  | None => false
  end.

Definition candidates (inclusions : list LibraryRecord) (searchField : Field) (fqn : string)
    : list string :=
  map swcPath (filter (provides searchField fqn) inclusions).


(** The test of the code for a package wild card: a class of the
    searched field begins with the characters of [pkg]. *)
Definition wildcardSelects (searchField : Field) (pkg : string) (record : LibraryRecord)
    : bool :=
  match fieldOf searchField record with
  | Some classes => existsb (Js.startsWith pkg) classes
  | None => false
  end.

(** The words of the specification for a package wild card: [pkg] is a
    prefix of the dotted path of [class], compared on whole segments. *)
Fixpoint isPrefixOf (a b : list string) : bool :=
  match a, b with
  | [], _ => true
  | x :: a', y :: b' => String.eqb x y && isPrefixOf a' b'
  | _ :: _, [] => false
  end.

Definition onWholeSegments (pkg class : string) : bool :=
  isPrefixOf (Js.split "."%char pkg) (Js.split "."%char class).

(** The history of deletions: a call on a binary file; a computation
    that enters nothing in the history; one that enters calls on binary
    files only; and one whose entries are calls on binary files
    followed by at most one call on the inclusions file [cache]. *)
Definition isBinary (e : DeleteSite * string) : Prop := fst e = BinaryFile.

Definition silent {A} (c : M A) : Prop := forall st, deleted (snd (c st)) = deleted st.

Definition binariesOnly {A} (c : M A) : Prop :=
  forall st, exists evs, deleted (snd (c st)) = (deleted st ++ evs)%list /\ Forall isBinary evs.

Definition inclusionsFileLast {A} (cache : string) (c : M A) : Prop :=
  forall st, exists evs last,
    deleted (snd (c st)) = (deleted st ++ evs ++ last)%list
    /\ Forall isBinary evs
    /\ (last = [] \/ last = [(InclusionsFile, cache)]).

(** Rewrite with a fact about the state, through the redexes that each
    rewriting step uncovers. *)
Ltac along H := repeat (rewrite H; cbv beta iota).

(** What the accumulator [swcPaths] of [getMatchingSWCs] holds at every
    turn: no path twice, and only non-empty paths of records of the index. *)
Definition resolved (inclusions : list LibraryRecord) (swcPaths : list string) : Prop :=
  NoDup swcPaths
  /\ forall path, In path swcPaths ->
       truthy path = true /\ exists record, In record inclusions /\ swcPath record = path.

(** The order of the resolved paths: each one is at least its
    successor in the order of [sort]. *)
Definition descending (paths : list string) : Prop :=
  Sorted (fun a b => String.leb b a = true) paths.

(** A record that [consolidateInclusions] inserts: one with a class in
    one of its two fields. *)
Definition hasClasses (record : LibraryRecord) : bool :=
  (0 <? count (swcClasses record))%Z || (0 <? count (globalSwcClasses record))%Z.

(** The order that [consolidateInclusions] keeps. *)
Definition byCounts (a b : LibraryRecord) : Prop :=
  (compareInclusions a b <=? 0)%Z = true.

(** A computation that leaves the disk as it was. *)
Definition readonly {A} (c : M A) : Prop := forall st, fs (snd (c st)) = fs st.

(** Every character of a text passes a test. *)
Fixpoint allChars (test : ascii -> bool) (s : string) : bool :=
  match s with
  | EmptyString => true
  | String c r => test c && allChars test r
  end.

(** A lower-case letter, a digit or a hyphen. *)
Definition isFileNameChar (c : ascii) : bool :=
  let n := nat_of_ascii c in
  (((48 <=? n) && (n <=? 57)) || ((97 <=? n) && (n <=? 122)) || (n =? 45))%nat.

Definition startsWithHyphen (s : string) : bool :=
  match s with
  | String c _ => Ascii.eqb c "-"%char
  | EmptyString => false
  end.

(** No hyphen is followed by a hyphen. *)
Fixpoint singleHyphens (s : string) : bool :=
  match s with
  | EmptyString => true
  | String c r => negb (Ascii.eqb c "-"%char && startsWithHyphen r) && singleHyphens r
  end.

Fixpoint mapChars (f : ascii -> ascii) (s : string) : string :=
  match s with
  | EmptyString => EmptyString
  | String c r => String (f c) (mapChars f r)
  end.

Definition hyphenToSpace (c : ascii) : ascii :=
  if Ascii.eqb c "-"%char then " "%char else c.

(** A character that is not a wild card of [listFiles]. *)
Definition isLiteralChar (c : ascii) : bool :=
  negb (Ascii.eqb c "*"%char) && negb (Ascii.eqb c "?"%char).

Definition onOneLine (s : string) : bool :=
  allChars (fun c => negb (FileManagementUtils.isLineTerminator c)) s.

(** The words of the specification for the self-reference guard: two
    paths are canonically equal when both resolve, symbolic links
    followed, to the same path, compared without regard to case on a
    platform of case-insensitive paths. *)
Definition canonicallyEqual {env : NodeEnv} (d : FS) (path1 path2 : string) : Prop :=
  exists resolved1 resolved2,
    realpathSync d (path_resolve1 path1) = Some resolved1
    /\ realpathSync d (path_resolve1 path2) = Some resolved2
    /\ if process_platform_win32
       then Js.toLowerCase resolved1 = Js.toLowerCase resolved2
       else resolved1 = resolved2.

(** A path that the walk of [listFiles] can reach from a directory: an
    entry of the directory, or a path reached from an entry that is a
    directory. *)
Inductive inside {env : NodeEnv} (d : FS) : string -> string -> Prop :=
| inside_entry (dir : string) (entries : list string) (file : string) :
    Fs.readdirSync d dir = Some entries -> In file entries ->
    inside d dir (path_join dir file)
| inside_deeper (dir : string) (entries : list string) (file p : string) :
    Fs.readdirSync d dir = Some entries -> In file entries ->
    Fs.statIsDirectory d (path_join dir file) = Some true ->
    inside d (path_join dir file) p -> inside d dir p.

(** What [readSwcClasses] gets from the shell for an archive: the exit
    code and the standard output. *)
Definition inspection {env : NodeEnv} (swcPath : string) (d : FS) : Z * string :=
  shell_exec d (Js.replaceFirst "%s" (StringUtils.smartQuotePath swcPath) lookIntoZipCmd).

(** What a walk from [dir] does to the paths collected so far: it
    keeps them and adds paths inside [dir] only; and when it returns,
    it has added every path inside [dir]. *)
Definition walks {env : NodeEnv} (d : FS) (dir : string) (run : Outcome unit * list string)
    (allPaths : list string) : Prop :=
  exists added,
    snd run = (allPaths ++ added)%list
    /\ (forall p, In p added -> inside d dir p)
    /\ (fst run = Returned tt -> forall p, inside d dir p -> In p added).

(** A computation that leaves the file at [q] as it was, content and
    modification time. *)
Definition keepsFile {A} (q content : string) (t : Z) (c : M A) : Prop :=
  forall st, fs st q = Some (File content t) -> fs (snd (c st)) q = Some (File content t).

(** ** A concrete workspace

    POSIX paths without [.] and [..] segments, a disk given by a table,
    and the scenario of a library project and an application that uses
    its package. *)

Module Demo.

Definition dirname (p : string) : string :=
  match Js.join "/" (Js.dropLast (Js.split "/"%char p)) with
  | EmptyString => if String.prefix "/" p then "/" else "."
  | d => d
  end.

Definition basename (p : string) : string :=
  match Js.pop (Js.split "/"%char p) with Some b => b | None => "" end.

Definition extname (p : string) : string :=
  match Js.split "."%char (basename p) with
  | [] | [_] => ""
  | first :: rest =>
      match rest, first with
      | [_], EmptyString => ""
      | _, _ => "." ++ match Js.pop rest with Some e => e | None => "" end
      end
  end.

Definition basename_ext (p ext : string) : string :=
  let b := basename p in
  let n := (String.length b - String.length ext)%nat in
  if negb (String.eqb ext "") && negb (String.eqb b ext)
     && String.eqb (String.substring n (String.length ext) b) ext
  then String.substring 0 n b else b.

Definition resolve (a b : string) : string :=
  if String.prefix "/" b then b
  else if String.eqb b "../../" then dirname (dirname a)
  else a ++ "/" ++ b.

Definition relative (from to : string) : string :=
  if String.prefix (from ++ "/") to then Js.skip (String.length from + 1) to else to.

Definition index : list LibraryRecord :=
  [ mkRecord "/ws/LibB/bin/libb.swc" (Some ["com.b.Z"]) (Some []);
    mkRecord "/ws/LibA/bin/liba.swc" (Some ["com.a.X"; "com.a.Y"]) (Some []) ].

Definition indexText : string := "[libb, liba]".

Definition parse (text : string) : option (list LibraryRecord) :=
  if String.eqb text indexText then Some index
  else if String.eqb text "[]" then Some []
  else None.

Definition stringify (inclusions : list LibraryRecord) : string :=
  match inclusions with
  | [] => "[]"
  | _ => indexText
  end.

(** The import pattern of the source scanner on the form the scenario
    uses: the word [import], one space, and a run of letters, digits,
    dots, underscores and dollar signs. *)
Definition isNameChar (c : ascii) : bool :=
  Js.isWordChar c || Ascii.eqb c "."%char || Ascii.eqb c "$"%char.

Fixpoint nameRun (s : string) : string :=
  match s with
  | String c r => if isNameChar c then String c (nameRun r) else EmptyString
  | EmptyString => EmptyString
  end.

Fixpoint scanImport (content : string) : list string :=
  match content with
  | EmptyString => []
  | String _ r =>
      if String.prefix "import " content
      then ("import " ++ nameRun (Js.skip 7 content)) :: scanImport r
      else scanImport r
  end.

(** [tar] on three archives: one whose catalog declares two
    definitions, one whose catalog declares none, and any other path,
    where it fails. *)
Definition exec (d : FS) (cmd : string) : Z * string :=
  if String.eqb cmd "tar -xOf /ws/App1/lib/ui.swc catalog.xml" then
    (0%Z, "<defs><def id=" ++ Js.quote ++ "com.ui:Button" ++ Js.quote ++ " /><def id="
          ++ Js.quote ++ "_internal" ++ Js.quote ++ " /></defs>")
  else if String.eqb cmd "tar -xOf /ws/App1/lib/empty.swc catalog.xml" then
    (0%Z, "<defs></defs>")
  else (1%Z, "").

#[export] Instance env : NodeEnv := {|
  path_sep := "/"%char;
  path_join := fun a b => a ++ "/" ++ b;
  path_resolve1 := fun p => p;
  path_resolve := resolve;
  path_dirname := dirname;
  path_basename := basename;
  path_basename_ext := basename_ext;
  path_extname := extname;
  path_relative := relative;
  process_platform_win32 := false;
  process_cwd := "/ws/App1";
  __dirname := "/opt/tools/sirius";
  realpathSync := fun d p => if Fs.existsSync d p then Some p else None;
  clock := fun _ => 2000%Z;
  rm_throws := fun _ _ => None;
  shell_exec := exec;
  JSON_parse := parse;
  JSON_parse_empty := eq_refl;
  JSON_stringify := stringify;
  match_importClassFqnPattern := scanImport;
  match_inlineClassFqnPattern := fun _ => [];
  exec_xmlnsImportClassPattern := fun _ => []
|}.

Fixpoint lookup (table : list (string * Node)) (p : string) : option Node :=
  match table with
  | [] => None
  | (q, n) :: rest => if String.eqb p q then Some n else lookup rest p
  end.

Definition disk (table : list (string * Node)) : FS := lookup table.

(** [listFiles] of [file_management_utils] at this environment, with
    room for 64 nested directories. *)
Definition listFiles : FS -> string -> list string -> bool -> bool -> option (list string) :=
  FileManagementUtils.listFiles 64.

Definition start (d : FS) (quiet : bool) (project : string) : State :=
  mkState d [] quiet (Some project).

(** Two libraries, an application that imports a class of each, a
    directory without sources, and the index cache of the workspace.
    The one class file of [LibA] that has an import names a class of
    [LibA] itself. *)
Definition workspace : FS := disk [
  ("/ws", Dir ["LibA"; "LibB"; "App1"; "Docs"; "sirius.inclusions.cache"] 10%Z);
  ("/ws/sirius.inclusions.cache", File indexText 10%Z);
  ("/ws/LibA", Dir ["src"; "bin"] 10%Z);
  ("/ws/LibA/bin", Dir ["liba.swc"] 10%Z);
  ("/ws/LibA/bin/liba.swc", File "swc" 20%Z);
  ("/ws/LibA/src", Dir ["com"] 10%Z);
  ("/ws/LibA/src/com", Dir ["a"] 10%Z);
  ("/ws/LibA/src/com/a", Dir ["X.as"; "Y.as"] 10%Z);
  ("/ws/LibA/src/com/a/X.as", File "import com.a.X; class X" 11%Z);
  ("/ws/LibA/src/com/a/Y.as", File "class Y" 12%Z);
  ("/ws/LibB", Dir ["src"; "bin"] 10%Z);
  ("/ws/LibB/bin", Dir ["libb.swc"] 10%Z);
  ("/ws/LibB/bin/libb.swc", File "swc" 20%Z);
  ("/ws/LibB/src", Dir ["com"] 10%Z);
  ("/ws/LibB/src/com", Dir ["b"] 10%Z);
  ("/ws/LibB/src/com/b", Dir ["Z.as"] 10%Z);
  ("/ws/LibB/src/com/b/Z.as", File "class Z" 11%Z);
  ("/ws/App1", Dir ["src"; "bin"] 10%Z);
  ("/ws/App1/bin", Dir ["main.swf"] 10%Z);
  ("/ws/App1/bin/main.swf", File "swf" 30%Z);
  ("/ws/App1/src", Dir ["Main.mxml"] 10%Z);
  ("/ws/App1/src/Main.mxml",
   File "<s:WindowedApplication> import com.a.X; import com.b.Z;" 13%Z);
  ("/ws/Docs", Dir ["notes.txt"] 10%Z);
  ("/ws/Docs/notes.txt", File "notes" 10%Z) ].

(** The same workspace after [Y.as] was touched. *)
Definition touched : FS :=
  fun p =>
    if String.eqb p "/ws/LibA/src/com/a/Y.as" then Some (File "class Y" 25%Z)
    else workspace p.

(** A workspace whose cache file holds white space only. *)
Definition blankCache : FS :=
  fun p =>
    if String.eqb p "/ws/sirius.inclusions.cache" then Some (File (" " ++ Js.nl) 10%Z)
    else workspace p.

Definition noDisk : FS := fun _ => None.

Definition cacheOf (workspacePath : string) : string :=
  resolve workspacePath inclusionsFileName.

(** The workspace before its first index: no cache file. *)
Definition uncached : FS :=
  fun p => if String.eqb p "/ws/sirius.inclusions.cache" then None else workspace p.

(** Two artifacts that both provide [a.B]. *)
Definition collidingIndex : list LibraryRecord :=
  [ mkRecord "/ws/L1/bin/l1.swc" (Some ["a.B"]) None;
    mkRecord "/ws/L2/bin/l2.swc" (Some ["a.B"; "a.C"]) None ].

(** An artifact whose package name begins with the characters of
    another package name. *)
Definition acmePlusIndex : list LibraryRecord :=
  [ mkRecord "/ws/AcmePlus/bin/acmeplus.swc" (Some ["com.acmeplus.Widget"]) (Some []) ].

End Demo.

(** * Dependency resolution: [getMatchingSWCs] *)

Lemma filterRecords_exact (searchField : Field) (fqn : string)
    (inclusions : list LibraryRecord) :
  havePartialFqn fqn = false ->
  filterRecords searchField fqn inclusions
  = Returned (filter (provides searchField fqn) inclusions).
Proof.
  intros Hexact. induction inclusions as [|record rest IH]; [reflexivity|].
  cbn [filterRecords filter]. unfold recordMatches. rewrite Hexact.
  cbn [obind]. rewrite IH. cbn [obind]. unfold provides. reflexivity.
Qed.

Lemma collisionWarning_muted (fqn : string) (matchingSWCs : list string) :
  UNMUTEABLE_MARKER (collisionWarning fqn matchingSWCs) = false.
Proof. reflexivity. Qed.

Lemma resolveFqn_collision_run (inclusions : list LibraryRecord) (searchField : Field)
    (fqn first second : string) (others swcPaths : list string) (st : State) :
  havePartialFqn fqn = false ->
  candidates inclusions searchField fqn = first :: second :: others ->
  resolveFqn inclusions searchField fqn swcPaths st
  = (Returned (pushMatches [first] swcPaths), st).
Proof.
  intros Hexact Hcand. unfold resolveFqn, bind, liftOutcome.
  rewrite (filterRecords_exact _ _ _ Hexact).
  unfold candidates in Hcand. rewrite Hcand, Hexact. reflexivity.
Qed.

(** C6, amended: an exact class that several records of the index
    provide contributes only the first of them, in index order, to the
    resolved paths, so that a request for that class alone returns
    exactly that artifact, or nothing where the path recorded for it
    is empty. *)
Theorem getMatchingSWCs_collision_first_wins
    (inclusions : list LibraryRecord) (searchField : Field)
    (fqn first second : string) (others : list string) (st : State) :
  havePartialFqn fqn = false ->
  candidates inclusions searchField fqn = first :: second :: others ->
  (forall swcPaths,
      fst (resolveFqn inclusions searchField fqn swcPaths st)
      = Returned (pushMatches [first] swcPaths))
  /\ fst (getMatchingSWCs inclusions [fqn] (Some searchField) st)
     = Returned (if truthy first then [first] else []).
Proof.
  intros Hexact Hcand.
  assert (Hrun := fun swcPaths =>
            resolveFqn_collision_run inclusions searchField fqn first second others
              swcPaths st Hexact Hcand).
  split; [intros swcPaths; rewrite Hrun; reflexivity|].
  unfold getMatchingSWCs. destruct inclusions as [|r0 rest]; [discriminate Hcand|].
  cbn [resolveFqns]. unfold bind. rewrite Hrun.
  unfold pushMatches. cbn [fold_left]. destruct (truthy first); reflexivity.
Qed.

(** The request of the class alone, on the two artifacts that provide
    [a.B]. *)
Lemma getMatchingSWCs_collision_first_wins_witness :
  fst (getMatchingSWCs Demo.collidingIndex ["a.B"] (Some swcClassesField)
         (Demo.start Demo.noDisk false "/ws/App1"))
  = Returned ["/ws/L1/bin/l1.swc"].
Proof.
  exact (proj2 (getMatchingSWCs_collision_first_wins
                  Demo.collidingIndex swcClassesField "a.B"
                  "/ws/L1/bin/l1.swc" "/ws/L2/bin/l2.swc" []
                  (Demo.start Demo.noDisk false "/ws/App1") eq_refl eq_refl)).
Defined.

(** Where C6 as stated fails, on the index of two artifacts that both
    provide [a.B]: when [a.C] is requested as well, both candidates of
    [a.B] are returned. *)
Lemma getMatchingSWCs_collision_counterexample :
  candidates Demo.collidingIndex swcClassesField "a.B"
  = ["/ws/L1/bin/l1.swc"; "/ws/L2/bin/l2.swc"]
  /\ fst (getMatchingSWCs Demo.collidingIndex ["a.B"; "a.C"] None
            (Demo.start Demo.noDisk false "/ws/App1"))
     = Returned ["/ws/L2/bin/l2.swc"; "/ws/L1/bin/l1.swc"].
Proof. split; vm_compute; reflexivity. Qed.

(** *** Package wild cards *)

Lemma split_cons (c : ascii) (s : string) : exists w ws, Js.split c s = w :: ws.
Proof.
  destruct s as [|a r]; cbn [Js.split]; [eauto|].
  destruct (Ascii.eqb a c); [eauto|]. destruct (Js.split c r); eauto.
Qed.

Lemma split_wildcard (pkg : string) :
  Js.split "."%char (pkg ++ ".*") = (Js.split "."%char pkg ++ ["*"])%list.
Proof.
  induction pkg as [|a r IH]; [reflexivity|].
  cbn [append Js.split]. rewrite IH.
  destruct (Ascii.eqb a "."%char); [reflexivity|].
  destruct (split_cons "."%char r) as (w & ws & Hsplit). rewrite Hsplit. reflexivity.
Qed.

Lemma concat_cons_char (sep : string) (a : ascii) (w : string) (ws : list string) :
  String.concat sep (String a w :: ws) = String a (String.concat sep (w :: ws)).
Proof. destruct ws; reflexivity. Qed.

Lemma join_split (s : string) : Js.join "." (Js.split "."%char s) = s.
Proof.
  unfold Js.join. induction s as [|a r IH]; [reflexivity|].
  cbn [Js.split]. destruct (split_cons "."%char r) as (w & ws & Hsplit).
  rewrite Hsplit in *. destruct (Ascii.eqb_spec a "."%char) as [->|_].
  - change (String.concat "." (EmptyString :: w :: ws))
      with (EmptyString ++ "." ++ String.concat "." (w :: ws)).
    rewrite IH. reflexivity.
  - rewrite concat_cons_char, IH. reflexivity.
Qed.

Lemma partialFqnOf_wildcard (pkg : string) : partialFqnOf (pkg ++ ".*") = pkg.
Proof.
  unfold partialFqnOf, Js.dropLast. rewrite split_wildcard, removelast_last.
  apply join_split.
Qed.

Lemma havePartialFqn_wildcard (pkg : string) : havePartialFqn (pkg ++ ".*") = true.
Proof.
  unfold havePartialFqn.
  assert (H : Js.lastChar (pkg ++ ".*") = Some "*"%char).
  { induction pkg as [|a r IH]; [reflexivity|].
    cbn [append Js.lastChar]. rewrite IH.
    destruct (r ++ ".*") eqn:Hr; [destruct r; discriminate|reflexivity]. }
  rewrite H. reflexivity.
Qed.

Lemma some_kept {A} (f : A -> bool) (l : list A) :
  Nat.ltb 0 (List.length (filter f l)) = existsb f l.
Proof.
  induction l as [|x r IH]; [reflexivity|].
  cbn [filter existsb]. destruct (f x); [reflexivity|exact IH].
Qed.

Lemma filterRecords_wildcard (searchField : Field) (pkg : string)
    (inclusions : list LibraryRecord) :
  (forall record, In record inclusions -> fieldOf searchField record <> None) ->
  filterRecords searchField (pkg ++ ".*") inclusions
  = Returned (filter (wildcardSelects searchField pkg) inclusions).
Proof.
  induction inclusions as [|record rest IH]; intros Hfield; [reflexivity|].
  cbn [filterRecords filter]. unfold recordMatches.
  rewrite havePartialFqn_wildcard, partialFqnOf_wildcard.
  unfold wildcardSelects at 1.
  destruct (fieldOf searchField record) as [classes|] eqn:Hclasses.
  - cbn [obind]. rewrite IH by (intros r Hr; apply Hfield; right; exact Hr).
    cbn [obind]. rewrite some_kept. reflexivity.
  - exfalso. apply (Hfield record); [left; reflexivity|exact Hclasses].
Qed.

Lemma In_pushMatches (matchingSWCs swcPaths : list string) (x : string) :
  In x (pushMatches matchingSWCs swcPaths)
  <-> In x swcPaths \/ (In x matchingSWCs /\ truthy x = true).
Proof.
  unfold pushMatches. revert swcPaths.
  induction matchingSWCs as [|m rest IH]; intros swcPaths; cbn [fold_left].
  - split; [auto|]. intros [H|[[] _]]. exact H.
  - rewrite IH. destruct (truthy m) eqn:Htruthy; cbn [andb].
    + destruct (Js.arrayIncludes m swcPaths) eqn:Hin; cbn [negb].
      * split; [intros [H|[H Hx]]; [auto|right; split; [right; exact H|exact Hx]]|].
        intros [H|[[->|H] Hx]]; [auto| |right; split; assumption].
        left. unfold Js.arrayIncludes in Hin. apply existsb_exists in Hin.
        destruct Hin as (y & Hy & Heq). apply String.eqb_eq in Heq. subst y. exact Hy.
      * rewrite in_app_iff. cbn [In].
        split; [intros [[H|[->|[]]]|[H Hx]]|intros [H|[[->|H] Hx]]]; auto 6.
    + split; [intros [H|[H Hx]]; [auto|right; split; [right; exact H|exact Hx]]|].
      intros [H|[[->|H] Hx]]; [auto|congruence|right; split; assumption].
Qed.

Lemma In_insert {A} (le : A -> A -> bool) (x y : A) (l : list A) :
  In y (Js.insert le x l) <-> y = x \/ In y l.
Proof.
  induction l as [|z r IH]; cbn [Js.insert In]; [intuition|].
  destruct (le x z); cbn [In]; [intuition|]. rewrite IH. intuition.
Qed.

Lemma In_sortBy {A} (le : A -> A -> bool) (y : A) (l : list A) :
  In y (Js.sortBy le l) <-> In y l.
Proof.
  unfold Js.sortBy. induction l as [|x r IH]; cbn [fold_right In]; [reflexivity|].
  rewrite In_insert, IH. intuition.
Qed.

(** What a package wild card selects: on an index whose records have
    the searched field, the request [pkg.*] alone returns the non-empty
    paths of the records of which a class begins with the characters of
    [pkg], and leaves the state as it was. *)
Lemma getMatchingSWCs_wildcard_selects (inclusions : list LibraryRecord)
    (searchField : Field) (pkg : string) (st : State) :
  (forall record, In record inclusions -> fieldOf searchField record <> None) ->
  exists selected,
    getMatchingSWCs inclusions [pkg ++ ".*"] (Some searchField) st = (Returned selected, st)
    /\ forall path,
         In path selected
         <-> truthy path = true
             /\ exists record, In record inclusions /\ swcPath record = path
                               /\ wildcardSelects searchField pkg record = true.
Proof.
  intros Hfield. destruct inclusions as [|r0 rest].
  - exists []. split; [reflexivity|]. intros path. split; [intros []|].
    intros (_ & record & [] & _).
  - exists (rev (Js.sort (pushMatches
               (map swcPath (filter (wildcardSelects searchField pkg) (r0 :: rest))) []))).
    split.
    + unfold getMatchingSWCs. cbn [resolveFqns].
      unfold resolveFqn, bind, liftOutcome.
      rewrite (filterRecords_wildcard _ _ _ Hfield), havePartialFqn_wildcard.
      reflexivity.
    + intros path. rewrite <- in_rev. unfold Js.sort. rewrite In_sortBy, In_pushMatches.
      rewrite in_map_iff. split.
      * intros [[]|((record & Hpath & Hin) & Htruthy)]. apply filter_In in Hin.
        split; [exact Htruthy|]. exists record. tauto.
      * intros (Htruthy & record & Hin & Hpath & Hsel). right. split; [|exact Htruthy].
        exists record. split; [exact Hpath|]. apply filter_In. tauto.
Qed.

Lemma append_assoc (a b c : string) : (a ++ b) ++ c = a ++ (b ++ c).
Proof. induction a as [|x a IH]; [reflexivity|]. cbn [append]. rewrite IH. reflexivity. Qed.

Lemma append_empty_r (s : string) : s ++ "" = s.
Proof. induction s as [|x s IH]; [reflexivity|]. cbn [append]. rewrite IH. reflexivity. Qed.

Lemma prefix_append (s t : string) : String.prefix s (s ++ t) = true.
Proof.
  induction s as [|a r IH]; [destruct t; reflexivity|].
  cbn [append String.prefix]. destruct (Ascii.ascii_dec a a); [exact IH|contradiction].
Qed.

Lemma concat_append (sep : string) (a : list string) (x : string) (rest : list string) :
  a <> [] ->
  String.concat sep (a ++ x :: rest)
  = String.concat sep a ++ sep ++ String.concat sep (x :: rest).
Proof.
  induction a as [|y a IH]; intros Hne; [contradiction|].
  destruct a as [|z a].
  - reflexivity.
  - change (String.concat sep ((y :: z :: a) ++ x :: rest))
      with (y ++ sep ++ String.concat sep ((z :: a) ++ x :: rest)).
    rewrite IH by discriminate.
    change (String.concat sep (y :: z :: a)) with (y ++ sep ++ String.concat sep (z :: a)).
    rewrite !append_assoc. reflexivity.
Qed.

Lemma isPrefixOf_app (a b : list string) :
  isPrefixOf a b = true -> exists rest, b = (a ++ rest)%list.
Proof.
  revert b. induction a as [|x a IH]; intros b H; [exists b; reflexivity|].
  destruct b as [|y b]; [discriminate|]. cbn [isPrefixOf] in H.
  apply andb_prop in H. destruct H as [Hxy Hab]. apply String.eqb_eq in Hxy. subst y.
  destruct (IH b Hab) as (rest & ->). exists rest. reflexivity.
Qed.

(** A prefix on whole segments is a prefix on characters: the test of
    the code selects every record that the words of the specification
    select. *)
Lemma onWholeSegments_startsWith (pkg class : string) :
  onWholeSegments pkg class = true -> Js.startsWith pkg class = true.
Proof.
  unfold onWholeSegments, Js.startsWith. intros H.
  destruct (isPrefixOf_app _ _ H) as (rest & Hsplit).
  assert (Hclass : class
                   = pkg ++ match rest with
                            | [] => ""
                            | _ :: _ => "." ++ String.concat "." rest
                            end).
  { rewrite <- (join_split class) at 1. rewrite Hsplit. unfold Js.join.
    destruct rest as [|x rest].
    - rewrite app_nil_r. fold (Js.join "." (Js.split "."%char pkg)).
      rewrite join_split, append_empty_r. reflexivity.
    - rewrite concat_append.
      + fold (Js.join "." (Js.split "."%char pkg)). rewrite join_split. reflexivity.
      + destruct (split_cons "."%char pkg) as (w & ws & ->). discriminate. }
  rewrite Hclass. apply prefix_append.
Qed.

(** C1 at the failing input: the request [com.acme.*] selects the
    artifact whose only class is [com.acmeplus.Widget], although
    [com.acme] is not a prefix of that class on whole segments; the
    test of the code is a prefix on characters. *)
Theorem getMatchingSWCs_wildcard_crosses_segments (st : State) :
  fst (getMatchingSWCs Demo.acmePlusIndex ["com.acme.*"] None st)
  = Returned ["/ws/AcmePlus/bin/acmeplus.swc"]
  /\ onWholeSegments "com.acme" "com.acmeplus.Widget" = false
  /\ Js.startsWith (partialFqnOf "com.acme.*") "com.acmeplus.Widget" = true.
Proof. repeat split; reflexivity. Qed.

(** * The index: [getInclusionsMap], [readSwcClasses], [listFiles] *)

Section Index.
Context {env : NodeEnv}.
Variable listFiles : FS -> string -> list string -> bool -> bool -> option (list string).

Lemma parsed_text_not_blank (text : string) (parsed : list LibraryRecord) :
  JSON_parse text = Some parsed -> truthy text = true.
Proof.
  intros Hparse. unfold truthy. destruct (String.eqb_spec text ""); [|reflexivity].
  subst text. rewrite JSON_parse_empty in Hparse. discriminate.
Qed.

(** C3: when the cache file exists and its text parses, the index
    returned is the parsed text, whatever the directory enumeration
    [listFiles] would answer and whatever else the disk holds; the disk
    is left as it was, and the state reached is the one that [$print]
    leaves, called with the message that the cache was reused. *)
Theorem getInclusionsMap_reuses_cache (searchPath : string) (silentMode : bool) (st : State)
    (content : string) (t : Z) (parsed : list LibraryRecord) :
  fs st (path_resolve searchPath inclusionsFileName) = Some (File content t) ->
  JSON_parse (Js.trim content) = Some parsed ->
  getInclusionsMap listFiles searchPath silentMode st
  = (Returned parsed,
     snd (unless silentMode
            (print_ [reusedMessage (path_resolve searchPath inclusionsFileName)]) st))
  /\ fs (snd (getInclusionsMap listFiles searchPath silentMode st)) = fs st.
Proof.
  intros Hfile Hparse.
  assert (Hrun : getInclusionsMap listFiles searchPath silentMode st
                 = (Returned parsed,
                    snd (unless silentMode
                           (print_ [reusedMessage (path_resolve searchPath inclusionsFileName)])
                           st))).
  { unfold getInclusionsMap, tryCache, bind, withFs, reading, Fs.existsSync, Fs.readFileSync.
    along Hfile. rewrite (parsed_text_not_blank _ _ Hparse). rewrite Hparse.
    unfold unless, print_, ret.
    destruct silentMode; [reflexivity|].
    destruct (mustPrintLess st); reflexivity. }
  split; [exact Hrun|]. rewrite Hrun. unfold unless, print_, ret. cbn [snd].
  destruct silentMode; [reflexivity|].
  destruct (mustPrintLess st); reflexivity.
Qed.

(** C4 at the failing inputs: a cache file whose text is empty or white
    space only does not parse, and [getInclusionsMap] answers the empty
    index and leaves the state as it was: nothing is scanned and
    nothing is written back. *)
Theorem getInclusionsMap_blank_cache_not_rebuilt (searchPath : string) (silentMode : bool)
    (st : State) (content : string) (t : Z) :
  fs st (path_resolve searchPath inclusionsFileName) = Some (File content t) ->
  Js.trim content = "" ->
  JSON_parse (Js.trim content) = None
  /\ getInclusionsMap listFiles searchPath silentMode st = (Returned [], st).
Proof.
  intros Hfile Hblank. split.
  - rewrite Hblank. apply JSON_parse_empty.
  - unfold getInclusionsMap, tryCache, bind, withFs, reading, Fs.existsSync, Fs.readFileSync.
    along Hfile. rewrite Hblank. reflexivity.
Qed.

(** A cache file whose text is not blank and does not parse is
    discarded: the index is rebuilt from the empty one. *)
Lemma getInclusionsMap_corrupted_cache_rebuilds (searchPath : string) (silentMode : bool)
    (st : State) (content : string) (t : Z) :
  fs st (path_resolve searchPath inclusionsFileName) = Some (File content t) ->
  Js.trim content <> "" ->
  JSON_parse (Js.trim content) = None ->
  getInclusionsMap listFiles searchPath silentMode st
  = (unless silentMode
       (print_ [corruptedMessage (path_resolve searchPath inclusionsFileName)]) ;;;
     rebuildInclusions listFiles searchPath
       (path_resolve searchPath inclusionsFileName) silentMode []) st.
Proof.
  intros Hfile Hnonblank Hparse.
  unfold getInclusionsMap, tryCache, bind, withFs, reading, Fs.existsSync, Fs.readFileSync.
  along Hfile. unfold truthy.
  destruct (String.eqb_spec (Js.trim content) ""); [contradiction|].
  rewrite Hparse. cbn [negb].
  destruct (unless silentMode _ st) as [[[]|e] st']; reflexivity.
Qed.

(** C5 at the failing inputs: when the command succeeds and its output
    holds no definition, the global match is [null] and the call of
    [map] on it throws. *)
Theorem readSwcClasses_throws_without_definitions (swcPath : string) (d : FS) :
  let result :=
    shell_exec d (Js.replaceFirst "%s" (StringUtils.smartQuotePath swcPath) lookIntoZipCmd) in
  fst result = 0%Z ->
  SwcDef.matchesFrom 0 (snd result) = [] ->
  readSwcClasses swcPath d
  = Thrown (TypeError "Cannot read properties of null (reading 'map')").
Proof.
  intros result Hcode Hnone. unfold readSwcClasses. fold result.
  rewrite Hcode. cbn [Z.eqb]. unfold SwcDef.matchGlobal. rewrite Hnone. reflexivity.
Qed.

(** A command that fails yields the empty list. *)
Lemma readSwcClasses_failure_is_empty (swcPath : string) (d : FS) :
  fst (shell_exec d (Js.replaceFirst "%s" (StringUtils.smartQuotePath swcPath) lookIntoZipCmd))
  <> 0%Z ->
  readSwcClasses swcPath d = Returned [].
Proof.
  intros Hcode. unfold readSwcClasses.
  destruct (Z.eqb_spec (fst (shell_exec d
              (Js.replaceFirst "%s" (StringUtils.smartQuotePath swcPath) lookIntoZipCmd))) 0);
    [contradiction|reflexivity].
Qed.

(** C2 at the failing inputs: on every existing directory [listFiles]
    ends without a [return], so its value is [undefined], whatever the
    filters and the two switches are. *)
Theorem listFiles_returns_undefined (depth : nat) (d : FS) (folder : string)
    (filters : list string) (useRelativePaths dropExtension : bool) :
  Fs.existsSync d folder = true ->
  FileManagementUtils.isDirectory d folder = true ->
  FileManagementUtils.listFiles depth d folder filters useRelativePaths dropExtension = None.
Proof.
  intros Hexists Hdir. unfold FileManagementUtils.listFiles.
  rewrite Hexists, Hdir. cbn [negb orb].
  destruct (FileManagementUtils.listFiles_main _ _ _ _ _ _); reflexivity.
Qed.

End Index.

Lemma getInclusionsMap_reuses_cache_witness :
  fst (getInclusionsMap (env := Demo.env) (fun _ _ _ _ _ => None) "/ws" true
         (Demo.start Demo.workspace false "/ws/App1"))
  = Returned Demo.index.
Proof.
  exact (f_equal fst
           (proj1 (getInclusionsMap_reuses_cache (env := Demo.env) (fun _ _ _ _ _ => None)
                     "/ws" true (Demo.start Demo.workspace false "/ws/App1")
                     Demo.indexText 10%Z Demo.index eq_refl eq_refl))).
Defined.

Lemma getInclusionsMap_blank_cache_not_rebuilt_witness :
  getInclusionsMap (env := Demo.env) Demo.listFiles "/ws" true
    (Demo.start Demo.blankCache false "/ws/App1")
  = (Returned [], Demo.start Demo.blankCache false "/ws/App1").
Proof.
  exact (proj2 (getInclusionsMap_blank_cache_not_rebuilt (env := Demo.env) Demo.listFiles
                  "/ws" true (Demo.start Demo.blankCache false "/ws/App1")
                  (" " ++ Js.nl) 10%Z eq_refl eq_refl)).
Defined.

Lemma readSwcClasses_throws_without_definitions_witness :
  readSwcClasses (env := Demo.env) "/ws/App1/lib/empty.swc" Demo.workspace
  = Thrown (TypeError "Cannot read properties of null (reading 'map')").
Proof.
  exact (readSwcClasses_throws_without_definitions (env := Demo.env)
           "/ws/App1/lib/empty.swc" Demo.workspace eq_refl eq_refl).
Defined.

(** An archive whose catalog declares [com.ui:Button] and [_internal]. *)
Example readSwcClasses_drops_underscore :
  readSwcClasses (env := Demo.env) "/ws/App1/lib/ui.swc" Demo.workspace
  = Returned ["com.ui.Button"].
Proof. reflexivity. Qed.

Lemma listFiles_returns_undefined_witness :
  FileManagementUtils.listFiles (env := Demo.env) 64 Demo.workspace "/ws/LibA/src"
    ["FILES_ONLY"] true true
  = None.
Proof.
  exact (listFiles_returns_undefined (env := Demo.env) 64 Demo.workspace "/ws/LibA/src"
           ["FILES_ONLY"] true true eq_refl eq_refl).
Defined.

(** * Staleness and invalidation: [mustBuildProject], [deleteCache] *)

Section Projects.
Context {env : NodeEnv}.
Variable listFiles : FS -> string -> list string -> bool -> bool -> option (list string).

Lemma bind_returned {A B} (c : M A) (k : A -> M B) (st st' : State) (a : A) :
  c st = (Returned a, st') -> bind c k st = k a st'.
Proof. intros H. unfold bind. rewrite H. reflexivity. Qed.

Lemma bind_ext {A B} (c : M A) (k1 k2 : A -> M B) (st : State) :
  (forall a st', k1 a st' = k2 a st') -> bind c k1 st = bind c k2 st.
Proof.
  intros H. unfold bind. destruct (c st) as [[a|e] st']; [apply H|reflexivity].
Qed.

(** With the warning bypassed, [getSrcFolderOf] leaves the state as it
    was. *)
Lemma getSrcFolderOf_bypass_state (projectFolder : string) (st : State) :
  snd (getSrcFolderOf listFiles projectFolder true st) = st.
Proof.
  unfold getSrcFolderOf. destruct (Fs.existsSync (fs st) projectFolder); [|reflexivity].
  unfold bind, liftOutcome, requireArray.
  destruct (listFiles (fs st) projectFolder allFoldersType false false); [|reflexivity].
  rewrite andb_false_r. reflexivity.
Qed.

Lemma getSrcFolderOf_found (projectFolder : string) (st : State) (found : option string) :
  fst (getSrcFolderOf listFiles projectFolder true st) = Returned found ->
  getSrcFolderOf listFiles projectFolder true st = (Returned found, st).
Proof.
  intros H. rewrite (surjective_pairing (getSrcFolderOf _ _ _ _)).
  rewrite H, getSrcFolderOf_bypass_state. reflexivity.
Qed.

Lemma print_returns (args : list string) (st : State) :
  fst (print_ args st) = Returned tt
  /\ fs (snd (print_ args st)) = fs st
  /\ deleted (snd (print_ args st)) = deleted st.
Proof.
  unfold print_. destruct args as [|first others]; [repeat split|].
  destruct (mustPrintLess st); [destruct (negb (UNMUTEABLE_MARKER first))|]; repeat split.
Qed.

Lemma bind_withFs {A B} (f : FS -> A) (k : A -> M B) (st : State) :
  bind (withFs f) k st = k (f (fs st)) st.
Proof. reflexivity. Qed.

(** The loop over the source files answers whether one of them is
    strictly newer than the binary file. *)
Lemma anyNewer_spec (d : FS) (binaryTime : Z) (srcFiles : list string) :
  (forall f, In f srcFiles -> Fs.existsSync d f = true) ->
  exists b,
    anyNewer d binaryTime srcFiles = Returned b
    /\ (b = true <->
        exists f t, In f srcFiles /\ Fs.statMtime d f = Some t /\ (t > binaryTime)%Z).
Proof.
  induction srcFiles as [|f rest IH]; intros Hexist.
  - exists false. split; [reflexivity|]. split; [discriminate|].
    intros (f & t & [] & _).
  - cbn [anyNewer].
    assert (Hf : Fs.existsSync d f = true) by (apply Hexist; left; reflexivity).
    unfold Fs.existsSync in Hf. unfold Fs.statMtime at 1.
    destruct (d f) as [node|] eqn:Hnode; [|discriminate].
    assert (Hstat : Fs.statMtime d f
                    = Some (match node with File _ t => t | Dir _ t => t end)).
    { unfold Fs.statMtime. rewrite Hnode. destruct node; reflexivity. }
    set (t := match node with File _ t => t | Dir _ t => t end) in *.
    replace (match node with File _ t0 => Some t0 | Dir _ t0 => Some t0 end)
      with (Some t) by (destruct node; reflexivity).
    destruct (Z.gtb_spec t binaryTime) as [Hnewer|Holder].
    + exists true. split; [reflexivity|]. split; [|reflexivity].
      intros _. exists f, t. repeat split; [left; reflexivity|exact Hstat|lia].
    + destruct IH as (b & Hrun & Hiff).
      { intros f' Hin. apply Hexist. right. exact Hin. }
      exists b. split; [exact Hrun|]. rewrite Hiff. split.
      * intros (f' & t' & Hin & Hst & Hgt). exists f', t'. repeat split; auto.
        right. exact Hin.
      * intros (f' & t' & [Heq|Hin] & Hst & Hgt).
        -- subst f'. rewrite Hstat in Hst. injection Hst as <-. lia.
        -- exists f', t'. repeat split; auto.
Qed.

(** The dependency loop consults the recursive call only on paths that
    [pathsAreEqual] tells apart from the project. *)
Lemma dependenciesMustBuild_ext (self1 self2 : string -> M bool) (projectFolderPath : string) :
  (forall dependencyPath st,
      FileManagementUtils.pathsAreEqual (fs st) dependencyPath projectFolderPath = false ->
      self1 dependencyPath st = self2 dependencyPath st) ->
  forall externalSWCs st,
    dependenciesMustBuild self1 projectFolderPath externalSWCs st
    = dependenciesMustBuild self2 projectFolderPath externalSWCs st.
Proof.
  intros Hagree externalSWCs.
  induction externalSWCs as [|swcPath rest IH]; intros st; [reflexivity|].
  cbn [dependenciesMustBuild]. rewrite !bind_withFs.
  destruct (FileManagementUtils.pathsAreEqual (fs st)
              (path_dirname (path_dirname swcPath)) projectFolderPath) eqn:Hsame.
  - apply IH.
  - unfold bind. rewrite (Hagree _ _ Hsame).
    destruct (self2 (path_dirname (path_dirname swcPath)) st) as [[dirty|e] st'];
      [|reflexivity].
    destruct dirty; [reflexivity|apply IH].
Qed.

Lemma dependenciesMustBuild_skip (self : string -> M bool)
    (projectFolderPath swcPath : string) (rest : list string) (st : State) :
  FileManagementUtils.pathsAreEqual (fs st) (path_dirname (path_dirname swcPath))
    projectFolderPath = true ->
  dependenciesMustBuild self projectFolderPath (swcPath :: rest) st
  = dependenciesMustBuild self projectFolderPath rest st.
Proof.
  intros Hsame. cbn [dependenciesMustBuild]. rewrite bind_withFs, Hsame. reflexivity.
Qed.

(** [pathsAreEqual] answers [true] exactly on canonically equal
    paths. *)
Lemma pathsAreEqual_canonical (d : FS) (path1 path2 : string) :
  FileManagementUtils.pathsAreEqual d path1 path2 = true <-> canonicallyEqual d path1 path2.
Proof.
  unfold FileManagementUtils.pathsAreEqual, canonicallyEqual. split.
  - destruct (realpathSync d (path_resolve1 path1)) as [r1|]; [|discriminate].
    destruct (realpathSync d (path_resolve1 path2)) as [r2|]; [|discriminate].
    intros Hsame. exists r1, r2. repeat split.
    destruct process_platform_win32; apply String.eqb_eq; exact Hsame.
  - intros (r1 & r2 & -> & -> & Hsame).
    destruct process_platform_win32; apply String.eqb_eq; exact Hsame.
Qed.

(** C8: an artifact whose owning path (two levels above it) is
    canonically equal to the project path is skipped by the dependency
    loop, and [mustBuildProject] makes no recursive call on such a
    path: its outcome is the same whatever a call on a canonically
    equal path would do. So when every resolved artifact is the
    project's own, the loop ends with [false] and without any
    recursive call. An artifact of any other path is not skipped: the
    recursive call is consulted on its owning path. *)
Theorem mustBuildProject_skips_own_artifact (self1 self2 : string -> M bool)
    (projectFolderPath : string) :
  (forall dependencyPath st,
      ~ canonicallyEqual (fs st) dependencyPath projectFolderPath ->
      self1 dependencyPath st = self2 dependencyPath st) ->
  (forall st,
      mustBuildProject_body listFiles self1 projectFolderPath st
      = mustBuildProject_body listFiles self2 projectFolderPath st)
  /\ (forall externalSWCs st,
         dependenciesMustBuild self1 projectFolderPath externalSWCs st
         = dependenciesMustBuild self2 projectFolderPath externalSWCs st)
  /\ (forall swcPath rest st,
         canonicallyEqual (fs st) (path_dirname (path_dirname swcPath)) projectFolderPath ->
         dependenciesMustBuild self1 projectFolderPath (swcPath :: rest) st
         = dependenciesMustBuild self1 projectFolderPath rest st)
  /\ (forall externalSWCs st,
         (forall swcPath, In swcPath externalSWCs ->
            canonicallyEqual (fs st) (path_dirname (path_dirname swcPath)) projectFolderPath) ->
         dependenciesMustBuild self1 projectFolderPath externalSWCs st = (Returned false, st))
  /\ (forall swcPath rest st,
         ~ canonicallyEqual (fs st) (path_dirname (path_dirname swcPath)) projectFolderPath ->
         dependenciesMustBuild self1 projectFolderPath (swcPath :: rest) st
         = (dirty <- self1 (path_dirname (path_dirname swcPath)) ;;
            if dirty then ret true
            else dependenciesMustBuild self1 projectFolderPath rest) st).
Proof.
  intros Hagree.
  assert (Hdiffer : forall dependencyPath st,
             FileManagementUtils.pathsAreEqual (fs st) dependencyPath projectFolderPath = false ->
             self1 dependencyPath st = self2 dependencyPath st).
  { intros dependencyPath st Hfalse. apply Hagree. intros Hequal.
    apply pathsAreEqual_canonical in Hequal. congruence. }
  split; [|split; [|split; [|split]]].
  - intros st. unfold mustBuildProject_body.
    apply bind_ext. intros present st0.
    destruct (truthy projectFolderPath && present); [|reflexivity].
    apply bind_ext. intros found st1. destruct found as [sourceFolder|]; [|reflexivity].
    apply bind_ext. intros srcPresent st2.
    destruct (truthy sourceFolder && srcPresent); [|reflexivity].
    apply bind_ext. intros binPresent st3. destruct (negb binPresent); [reflexivity|].
    apply bind_ext. intros externalSWCs st4.
    unfold bind. rewrite (dependenciesMustBuild_ext self1 self2 _ Hdiffer). reflexivity.
  - apply dependenciesMustBuild_ext. exact Hdiffer.
  - intros swcPath rest st Hsame. apply dependenciesMustBuild_skip.
    apply pathsAreEqual_canonical. exact Hsame.
  - intros externalSWCs. induction externalSWCs as [|swcPath rest IH]; intros st Hown;
      [reflexivity|].
    rewrite dependenciesMustBuild_skip
      by (apply pathsAreEqual_canonical, Hown; left; reflexivity).
    apply IH. intros swc Hin. apply Hown. right. exact Hin.
  - intros swcPath rest st Hother. cbn [dependenciesMustBuild]. rewrite bind_withFs.
    destruct (FileManagementUtils.pathsAreEqual (fs st)
                (path_dirname (path_dirname swcPath)) projectFolderPath) eqn:Hsame;
      [|reflexivity].
    exfalso. apply Hother, pathsAreEqual_canonical, Hsame.
Qed.

(** *** The history of deletions *)

Lemma silent_ret {A} (a : A) : silent (ret a).
Proof. intros st. reflexivity. Qed.

Lemma silent_withFs {A} (f : FS -> A) : silent (withFs f).
Proof. intros st. reflexivity. Qed.

Lemma silent_reading {A} (f : FS -> Outcome A) : silent (reading f).
Proof. intros st. reflexivity. Qed.

Lemma silent_liftOutcome {A} (o : Outcome A) : silent (liftOutcome o).
Proof. intros st. reflexivity. Qed.

Lemma silent_bind {A B} (c : M A) (k : A -> M B) :
  silent c -> (forall a, silent (k a)) -> silent (bind c k).
Proof.
  intros Hc Hk st. unfold bind. specialize (Hc st).
  destruct (c st) as [[a|e] st']; cbn [snd] in *; [|exact Hc].
  rewrite (Hk a st'). exact Hc.
Qed.

Lemma silent_print (args : list string) : silent (print_ args).
Proof. intros st. apply print_returns. Qed.

Lemma silent_unless (silentMode : bool) (c : M unit) : silent c -> silent (unless silentMode c).
Proof. intros Hc. destruct silentMode; [apply silent_ret|exact Hc]. Qed.

Lemma silent_deletePathNode (path : string) : silent (FileManagementUtils.deletePathNode path).
Proof.
  intros st. unfold FileManagementUtils.deletePathNode.
  destruct (Fs.existsSync (fs st) path); [|reflexivity].
  destruct (rm_throws (fs st) path); [reflexivity|].
  destruct (FileManagementUtils.isDirectory (fs st) path); reflexivity.
Qed.

Lemma silent_getSrcFolderOf (projectFolder : string) (bypassWarning : bool) :
  silent (getSrcFolderOf listFiles projectFolder bypassWarning).
Proof.
  intros st. unfold getSrcFolderOf.
  destruct (Fs.existsSync (fs st) projectFolder); [|reflexivity].
  apply silent_bind; [apply silent_liftOutcome|]. intros listed.
  apply silent_bind; [|intros _; apply silent_ret].
  destruct (_ && _); [apply silent_print|apply silent_ret].
Qed.

Lemma silent_resolveFqns (inclusions : list LibraryRecord) (searchField : Field)
    (classFQNs swcPaths : list string) :
  silent (resolveFqns inclusions searchField classFQNs swcPaths).
Proof.
  revert swcPaths. induction classFQNs as [|fqn rest IH]; intros swcPaths;
    [apply silent_ret|].
  cbn [resolveFqns]. apply silent_bind; [|intros a; apply IH].
  unfold resolveFqn. apply silent_bind; [apply silent_liftOutcome|]. intros matching.
  apply silent_bind; [|intros a; apply silent_ret].
  destruct (_ && _); [|apply silent_ret].
  apply silent_bind; [apply silent_print|intros _; apply silent_ret].
Qed.

Lemma silent_getMatchingSWCs (inclusions : list LibraryRecord) (classFQNs : list string)
    (searchField : option Field) :
  silent (getMatchingSWCs inclusions classFQNs searchField).
Proof.
  unfold getMatchingSWCs. destruct inclusions; [apply silent_ret|].
  destruct classFQNs; [apply silent_ret|].
  apply silent_bind; [apply silent_resolveFqns|intros a; apply silent_ret].
Qed.

Lemma silent_indexProject (silentMode : bool) (dirPath : string)
    (inclusions : list LibraryRecord) :
  silent (indexProject listFiles silentMode dirPath inclusions).
Proof.
  unfold indexProject. apply silent_bind; [apply silent_reading|]. intros inclusions'.
  apply silent_bind.
  { intros st. destruct (currentProjectFolder st); reflexivity. }
  intros current. apply silent_bind; [apply silent_getSrcFolderOf|]. intros found.
  destruct found as [sourceFolder|]; [|apply silent_ret].
  apply silent_bind; [apply silent_withFs|]. intros present.
  destruct (_ && _); [|apply silent_ret].
  apply silent_bind; [apply silent_reading|]. intros projectsApps.
  destruct projectsApps; [|apply silent_ret].
  apply silent_bind; [apply silent_reading|]. intros classFiles.
  apply silent_bind; [|intros _; apply silent_ret].
  destruct (filter _ _); [apply silent_ret|].
  apply silent_unless, silent_print.
Qed.

Lemma silent_indexProjects (silentMode : bool) (workspaceDirs : list string)
    (inclusions : list LibraryRecord) :
  silent (indexProjects listFiles silentMode workspaceDirs inclusions).
Proof.
  revert inclusions. induction workspaceDirs as [|dirPath rest IH]; intros inclusions;
    [apply silent_ret|].
  cbn [indexProjects]. apply silent_bind; [apply silent_indexProject|intros a; apply IH].
Qed.

Lemma silent_getInclusionsMap (searchPath : string) (silentMode : bool) :
  silent (getInclusionsMap listFiles searchPath silentMode).
Proof.
  unfold getInclusionsMap. apply silent_bind.
  - unfold tryCache. apply silent_bind; [apply silent_withFs|]. intros present.
    destruct present; [|apply silent_ret].
    apply silent_bind; [apply silent_reading|]. intros content.
    destruct (truthy _); [|apply silent_ret].
    destruct (JSON_parse _);
      (apply silent_bind; [apply silent_unless, silent_print|intros _; apply silent_ret]).
  - intros [[inclusions cacheExists] cacheCorrupted].
    destruct (_ || _); [|apply silent_ret].
    unfold rebuildInclusions. apply silent_bind; [apply silent_reading|]. intros dirs.
    apply silent_bind; [apply silent_indexProjects|]. intros inclusions'.
    apply silent_bind.
    { intros st. destruct (Fs.writeFileSync _ _ _); reflexivity. }
    intros _. apply silent_bind; [apply silent_unless, silent_print|].
    intros _. apply silent_ret.
Qed.

Lemma silent_externalSWCsOf (projectFolderPath sourceFolder : string) :
  silent (externalSWCsOf listFiles projectFolderPath sourceFolder).
Proof.
  unfold externalSWCsOf. apply silent_bind; [apply silent_getInclusionsMap|]. intros map.
  apply silent_bind; [apply silent_reading|]. intros classes.
  apply silent_getMatchingSWCs.
Qed.

Lemma silent_binariesOnly {A} (c : M A) : silent c -> binariesOnly c.
Proof.
  intros Hc st. exists []. rewrite app_nil_r. split; [apply Hc|constructor].
Qed.

Lemma binariesOnly_bind {A B} (c : M A) (k : A -> M B) :
  binariesOnly c -> (forall a, binariesOnly (k a)) -> binariesOnly (bind c k).
Proof.
  intros Hc Hk st. unfold bind. destruct (Hc st) as (evs & Heq & Hbin).
  destruct (c st) as [[a|e] st']; cbn [snd] in *; [|exists evs; split; assumption].
  destruct (Hk a st') as (evs' & Heq' & Hbin').
  exists (evs ++ evs')%list. split.
  - rewrite Heq', Heq, app_assoc. reflexivity.
  - apply Forall_app. split; assumption.
Qed.

Lemma binariesOnly_deleteOwnBinary (projectFolderPath sourceFolder : string) :
  binariesOnly (deleteOwnBinary listFiles projectFolderPath sourceFolder).
Proof.
  unfold deleteOwnBinary.
  apply binariesOnly_bind; [apply silent_binariesOnly, silent_reading|]. intros binaryFilePath.
  apply binariesOnly_bind; [apply silent_binariesOnly, silent_withFs|]. intros present.
  destruct (_ && _); [|apply silent_binariesOnly, silent_ret].
  apply binariesOnly_bind; [apply silent_binariesOnly, silent_print|]. intros _.
  apply binariesOnly_bind; [|intros _; apply silent_binariesOnly, silent_deletePathNode].
  intros st. exists [(BinaryFile, binaryFilePath)]. split; [reflexivity|].
  constructor; [reflexivity|constructor].
Qed.

Lemma binariesOnly_deleteDependencies (self : string -> bool -> M unit)
    (projectFolderPath : string) (externalSWCs : list string) :
  (forall dependencyPath, binariesOnly (self dependencyPath true)) ->
  binariesOnly (deleteDependencies self projectFolderPath externalSWCs).
Proof.
  intros Hself. induction externalSWCs as [|swcPath rest IH];
    [apply silent_binariesOnly, silent_ret|].
  cbn [deleteDependencies].
  apply binariesOnly_bind; [apply silent_binariesOnly, silent_withFs|]. intros same.
  destruct same; [exact IH|].
  apply binariesOnly_bind; [apply Hself|intros _; exact IH].
Qed.

(** The statements of [deleteCache] before the last one. *)
Lemma binariesOnly_projectPart (self : string -> bool -> M unit) (projectFolderPath : string)
    (found : option string) :
  (forall dependencyPath, binariesOnly (self dependencyPath true)) ->
  binariesOnly
    (match found with
     | None => ret tt
     | Some sourceFolder =>
         srcPresent <- withFs (fun d => Fs.existsSync d sourceFolder) ;;
         if truthy sourceFolder && srcPresent then
           externalSWCs <- externalSWCsOf listFiles projectFolderPath sourceFolder ;;
           deleteDependencies self projectFolderPath externalSWCs ;;;
           deleteOwnBinary listFiles projectFolderPath sourceFolder
         else ret tt
     end).
Proof.
  intros Hself. destruct found as [sourceFolder|]; [|apply silent_binariesOnly, silent_ret].
  apply binariesOnly_bind; [apply silent_binariesOnly, silent_withFs|]. intros srcPresent.
  destruct (_ && _); [|apply silent_binariesOnly, silent_ret].
  apply binariesOnly_bind; [apply silent_binariesOnly, silent_externalSWCsOf|].
  intros externalSWCs.
  apply binariesOnly_bind; [apply binariesOnly_deleteDependencies, Hself|].
  intros _. apply binariesOnly_deleteOwnBinary.
Qed.

Lemma binariesOnly_body_keeping (self : string -> bool -> M unit) (projectFolderPath : string) :
  (forall dependencyPath, binariesOnly (self dependencyPath true)) ->
  binariesOnly (deleteCache_body listFiles self projectFolderPath true).
Proof.
  intros Hself. unfold deleteCache_body.
  apply binariesOnly_bind; [apply silent_binariesOnly, silent_withFs|]. intros present.
  destruct (_ && _); [|apply silent_binariesOnly, silent_ret].
  apply binariesOnly_bind; [apply silent_binariesOnly, silent_getSrcFolderOf|]. intros found.
  apply binariesOnly_bind; [|intros _; apply silent_binariesOnly, silent_ret].
  apply binariesOnly_projectPart, Hself.
Qed.

Lemma binariesOnly_deleteCache_keeping (depth : nat) (projectFolderPath : string) :
  binariesOnly (deleteCache listFiles depth projectFolderPath true).
Proof.
  revert projectFolderPath. induction depth as [|depth IH]; intros projectFolderPath.
  - intros st. exists []. rewrite app_nil_r. split; [reflexivity|constructor].
  - cbn [deleteCache]. apply binariesOnly_body_keeping. exact IH.
Qed.

Lemma binariesOnly_inclusionsFileLast {A} (cache : string) (c : M A) :
  binariesOnly c -> inclusionsFileLast cache c.
Proof.
  intros Hc st. destruct (Hc st) as (evs & Heq & Hbin).
  exists evs, []. rewrite app_nil_r. repeat split; [exact Heq|exact Hbin|left; reflexivity].
Qed.

Lemma inclusionsFileLast_bind {A B} (cache : string) (c : M A) (k : A -> M B) :
  binariesOnly c -> (forall a, inclusionsFileLast cache (k a)) ->
  inclusionsFileLast cache (bind c k).
Proof.
  intros Hc Hk st. unfold bind. destruct (Hc st) as (evs & Heq & Hbin).
  destruct (c st) as [[a|e] st']; cbn [snd] in *.
  - destruct (Hk a st') as (evs' & last & Heq' & Hbin' & Hlast).
    exists (evs ++ evs')%list, last. repeat split.
    + rewrite Heq', Heq, !app_assoc. reflexivity.
    + apply Forall_app. split; assumption.
    + exact Hlast.
  - exists evs, []. rewrite app_nil_r. repeat split; [exact Heq|exact Hbin|left; reflexivity].
Qed.

Lemma inclusionsFileLast_deleteInclusionsFile (workspacePath : string) :
  inclusionsFileLast (path_resolve workspacePath inclusionsFileName)
    (deleteInclusionsFile workspacePath).
Proof.
  intros st. unfold deleteInclusionsFile.
  set (cache := path_resolve workspacePath inclusionsFileName).
  rewrite bind_withFs. destruct (Fs.existsSync (fs st) cache).
  - exists [], [(InclusionsFile, cache)]. repeat split; [|constructor|right; reflexivity].
    destruct (print_returns [Js.nl ++ "[i] Deleting cache file:"; cache] st)
      as (Hret & _ & Hdel).
    unfold bind at 1.
    destruct (print_ [Js.nl ++ "[i] Deleting cache file:"; cache] st) as [o st1].
    cbn [fst snd] in *. subst o.
    unfold bind at 1. unfold noteDeletion at 1.
    rewrite silent_deletePathNode. cbn [deleted addDeleted]. rewrite Hdel. reflexivity.
  - exists [], []. repeat split; [rewrite app_nil_r; reflexivity|constructor|left; reflexivity].
Qed.

Lemma deleteDependencies_ext (self1 self2 : string -> bool -> M unit)
    (projectFolderPath : string) :
  (forall dependencyPath st, self1 dependencyPath true st = self2 dependencyPath true st) ->
  forall externalSWCs st,
    deleteDependencies self1 projectFolderPath externalSWCs st
    = deleteDependencies self2 projectFolderPath externalSWCs st.
Proof.
  intros Hagree externalSWCs.
  induction externalSWCs as [|swcPath rest IH]; intros st; [reflexivity|].
  cbn [deleteDependencies]. rewrite !bind_withFs.
  destruct (FileManagementUtils.pathsAreEqual _ _ _); [apply IH|].
  unfold bind. rewrite Hagree.
  destruct (self2 _ true st) as [[[]|e] st']; [apply IH|reflexivity].
Qed.

(** C9: [deleteCache] consults its recursive call with
    [keepInclusionsFile] on only, so its outcome is the same whatever a
    nested call with the switch off would do. A call with the switch on
    hands only binary files to [deletePathNode], at any depth of
    nesting; a call with the switch off hands it binary files and
    then, at most once and as the last entry of the history, the
    inclusions file of the workspace of the project. *)
Theorem deleteCache_deletes_inclusions_file_once (projectFolderPath : string) :
  (forall self1 self2 keepInclusionsFile,
      (forall dependencyPath st,
          self1 dependencyPath true st = self2 dependencyPath true st) ->
      forall st,
        deleteCache_body listFiles self1 projectFolderPath keepInclusionsFile st
        = deleteCache_body listFiles self2 projectFolderPath keepInclusionsFile st)
  /\ (forall depth, binariesOnly (deleteCache listFiles depth projectFolderPath true))
  /\ (forall depth,
         inclusionsFileLast
           (path_resolve (fst (getWorkspacePaths projectFolderPath)) inclusionsFileName)
           (deleteCache listFiles depth projectFolderPath false)).
Proof.
  split; [|split].
  - intros self1 self2 keep Hagree st. unfold deleteCache_body.
    apply bind_ext. intros present st0. destruct (_ && _); [|reflexivity].
    apply bind_ext. intros found st1.
    destruct found as [sourceFolder|]; [|reflexivity].
    unfold bind at 1 3. 
    assert (Hpart : forall st2,
               (srcPresent <- withFs (fun d => Fs.existsSync d sourceFolder) ;;
                if truthy sourceFolder && srcPresent then
                  externalSWCs <- externalSWCsOf listFiles projectFolderPath sourceFolder ;;
                  deleteDependencies self1 projectFolderPath externalSWCs ;;;
                  deleteOwnBinary listFiles projectFolderPath sourceFolder
                else ret tt) st2
               = (srcPresent <- withFs (fun d => Fs.existsSync d sourceFolder) ;;
                  if truthy sourceFolder && srcPresent then
                    externalSWCs <- externalSWCsOf listFiles projectFolderPath sourceFolder ;;
                    deleteDependencies self2 projectFolderPath externalSWCs ;;;
                    deleteOwnBinary listFiles projectFolderPath sourceFolder
                  else ret tt) st2).
    { intros st2. apply bind_ext. intros srcPresent st3. destruct (_ && _); [|reflexivity].
      apply bind_ext. intros externalSWCs st4. unfold bind.
      rewrite (deleteDependencies_ext self1 self2 _ Hagree). reflexivity. }
    rewrite Hpart. reflexivity.
  - intros depth. apply binariesOnly_deleteCache_keeping.
  - intros depth. destruct depth as [|depth].
    + apply binariesOnly_inclusionsFileLast. intros st. exists [].
      rewrite app_nil_r. split; [reflexivity|constructor].
    + cbn [deleteCache]. unfold deleteCache_body.
      apply inclusionsFileLast_bind; [apply silent_binariesOnly, silent_withFs|].
      intros present.
      destruct (_ && _); [|apply binariesOnly_inclusionsFileLast, silent_binariesOnly, silent_ret].
      apply inclusionsFileLast_bind; [apply silent_binariesOnly, silent_getSrcFolderOf|].
      intros found. apply inclusionsFileLast_bind.
      * apply binariesOnly_projectPart. intros d. apply binariesOnly_deleteCache_keeping.
      * intros _. apply inclusionsFileLast_deleteInclusionsFile.
Qed.

End Projects.

(** A recursive call that would exhaust the stack wherever it is made:
    the one resolved artifact of the library is its own, and the loop
    ends without the call. *)
Lemma mustBuildProject_skips_own_artifact_witness :
  dependenciesMustBuild (env := Demo.env) (fun _ => throw RangeError) "/ws/LibA"
    ["/ws/LibA/bin/liba.swc"] (Demo.start Demo.workspace false "/ws/LibA")
  = (Returned false, Demo.start Demo.workspace false "/ws/LibA").
Proof.
  apply (proj1 (proj2 (proj2 (proj2
           (mustBuildProject_skips_own_artifact (env := Demo.env) Demo.listFiles
              (fun _ => throw RangeError) (fun _ => throw RangeError) "/ws/LibA"
              (fun _ _ _ => eq_refl)))))).
  intros swcPath [<-|[]]. exists "/ws/LibA", "/ws/LibA". repeat split.
Defined.

(** ** The program as wired

    [sirius.js.old] calls the [listFiles] of [file_management_utils],
    whose value on every existing directory is [undefined]. *)

Section Wired.
Context {env : NodeEnv}.
Variable walkDepth : nat.

Lemma listFiles_wired (d : FS) (folder : string) (filters : list string)
    (useRelativePaths dropExtension : bool) :
  FileManagementUtils.listFiles walkDepth d folder filters useRelativePaths dropExtension
  = if Fs.existsSync d folder && FileManagementUtils.isDirectory d folder
    then None else Some [].
Proof.
  unfold FileManagementUtils.listFiles.
  destruct (Fs.existsSync d folder); [|reflexivity].
  destruct (FileManagementUtils.isDirectory d folder); [|reflexivity].
  cbn [negb orb andb].
  destruct (FileManagementUtils.listFiles_main _ _ _ _ _ _); reflexivity.
Qed.

(** [getSrcFolderOf] never finds a source folder: on an existing
    directory the call of [filter] on [undefined] throws, and on any
    other path the answer is [null] or [undefined]. *)
Theorem getSrcFolderOf_never_finds (projectFolder : string) (bypassWarning : bool)
    (st : State) :
  getSrcFolderOf (FileManagementUtils.listFiles walkDepth) projectFolder bypassWarning st
  = (if Fs.existsSync (fs st) projectFolder
        && FileManagementUtils.isDirectory (fs st) projectFolder
     then Thrown (TypeError "Cannot read properties of undefined")
     else Returned None, st).
Proof.
  unfold getSrcFolderOf. rewrite listFiles_wired.
  destruct (Fs.existsSync (fs st) projectFolder); [|reflexivity].
  destruct (FileManagementUtils.isDirectory (fs st) projectFolder); reflexivity.
Qed.

Lemma getSrcFolderOf_throws (projectFolder : string) (bypassWarning : bool) (st : State) :
  Fs.existsSync (fs st) projectFolder = true ->
  FileManagementUtils.isDirectory (fs st) projectFolder = true ->
  getSrcFolderOf (FileManagementUtils.listFiles walkDepth) projectFolder bypassWarning st
  = (Thrown (TypeError "Cannot read properties of undefined"), st).
Proof.
  intros Hexists Hdir. unfold getSrcFolderOf. rewrite listFiles_wired, Hexists, Hdir.
  reflexivity.
Qed.

(** C7 at the failing inputs: on every project directory
    [mustBuildProject] throws where it asks for the source folder, so
    no modification time is ever compared. *)
Theorem mustBuildProject_throws_on_project_directory (depth : nat)
    (projectFolderPath : string) (st : State) :
  truthy projectFolderPath = true ->
  Fs.existsSync (fs st) projectFolderPath = true ->
  FileManagementUtils.isDirectory (fs st) projectFolderPath = true ->
  mustBuildProject (FileManagementUtils.listFiles walkDepth) (S depth) projectFolderPath st
  = (Thrown (TypeError "Cannot read properties of undefined"), st).
Proof.
  intros Hname Hexists Hdir. cbn [mustBuildProject]. unfold mustBuildProject_body.
  rewrite bind_withFs, Hname, Hexists. cbn [andb].
  unfold bind. rewrite (getSrcFolderOf_throws _ _ _ Hexists Hdir). reflexivity.
Qed.

(** C10 at the failing inputs: on every project directory, with a
    source folder or without, [deleteCache] throws where it asks for
    the source folder, before the statements that delete the
    inclusions file: the disk is as it was. *)
Theorem deleteCache_throws_on_project_directory (depth : nat)
    (projectFolderPath : string) (keepInclusionsFile : bool) (st : State) :
  truthy projectFolderPath = true ->
  Fs.existsSync (fs st) projectFolderPath = true ->
  FileManagementUtils.isDirectory (fs st) projectFolderPath = true ->
  deleteCache (FileManagementUtils.listFiles walkDepth) (S depth) projectFolderPath
    keepInclusionsFile st
  = (Thrown (TypeError "Cannot read properties of undefined"), st).
Proof.
  intros Hname Hexists Hdir. cbn [deleteCache]. unfold deleteCache_body.
  rewrite bind_withFs, Hname, Hexists. cbn [andb].
  unfold bind. rewrite (getSrcFolderOf_throws _ _ _ Hexists Hdir). reflexivity.
Qed.

(** The index of a workspace directory cannot be built: without a
    cache file, [getInclusionsMap] throws where it reads the length of
    the list of folders, and writes no cache. *)
Theorem getInclusionsMap_cannot_build_index (searchPath : string) (silentMode : bool)
    (st : State) :
  Fs.existsSync (fs st) searchPath = true ->
  FileManagementUtils.isDirectory (fs st) searchPath = true ->
  Fs.existsSync (fs st) (path_resolve searchPath inclusionsFileName) = false ->
  getInclusionsMap (FileManagementUtils.listFiles walkDepth) searchPath silentMode st
  = (Thrown (TypeError "Cannot read properties of undefined"), st).
Proof.
  intros Hexists Hdir Habsent. unfold getInclusionsMap, tryCache.
  unfold bind at 1. rewrite bind_withFs, Habsent. cbn [ret negb orb].
  unfold rebuildInclusions, bind, reading, listFolders.
  rewrite listFiles_wired, Hexists, Hdir. reflexivity.
Qed.

(** [getProjectApplications] finds no application: on a source folder
    that is a directory the call of [filter] on [undefined] throws, and
    on any other path the list is empty. *)
Theorem getProjectApplications_never_finds (sourceFolder : string) (d : FS) :
  getProjectApplications (FileManagementUtils.listFiles walkDepth) sourceFolder d
  = if Fs.existsSync d sourceFolder && FileManagementUtils.isDirectory d sourceFolder
    then Thrown (TypeError "Cannot read properties of undefined")
    else Returned [].
Proof.
  unfold getProjectApplications. rewrite listFiles_wired.
  destruct (Fs.existsSync d sourceFolder); [|reflexivity].
  destruct (FileManagementUtils.isDirectory d sourceFolder); reflexivity.
Qed.

(** [listClassImports] reads no file: on a folder that is a directory
    the read of [length] on [undefined] throws, and on any other path
    the list is empty. *)
Theorem listClassImports_never_reads (folder : string) (d : FS) :
  listClassImports (FileManagementUtils.listFiles walkDepth) folder d
  = if Fs.existsSync d folder && FileManagementUtils.isDirectory d folder
    then Thrown (TypeError "Cannot read properties of undefined")
    else Returned [].
Proof.
  unfold listClassImports. rewrite listFiles_wired.
  destruct (Fs.existsSync d folder && FileManagementUtils.isDirectory d folder); reflexivity.
Qed.

End Wired.

(** The library of the workspace after [Y.as] was touched: its binary
    file exists and [Y.as] is newer than it. *)
Lemma mustBuildProject_throws_on_project_directory_witness :
  mustBuildProject (env := Demo.env) Demo.listFiles 3 "/ws/LibA"
    (Demo.start Demo.touched false "/ws/LibA")
  = (Thrown (TypeError "Cannot read properties of undefined"),
     Demo.start Demo.touched false "/ws/LibA").
Proof.
  exact (mustBuildProject_throws_on_project_directory (env := Demo.env) 64 2 "/ws/LibA"
           (Demo.start Demo.touched false "/ws/LibA") eq_refl eq_refl eq_refl).
Defined.

(** A directory of the workspace without a source folder, while the
    inclusions file of the workspace exists. *)
Lemma deleteCache_throws_on_project_directory_witness :
  deleteCache (env := Demo.env) Demo.listFiles 3 "/ws/Docs" false
    (Demo.start Demo.workspace false "/ws/Docs")
  = (Thrown (TypeError "Cannot read properties of undefined"),
     Demo.start Demo.workspace false "/ws/Docs").
Proof.
  exact (deleteCache_throws_on_project_directory (env := Demo.env) 64 2 "/ws/Docs" false
           (Demo.start Demo.workspace false "/ws/Docs") eq_refl eq_refl eq_refl).
Defined.

Lemma getInclusionsMap_cannot_build_index_witness :
  getInclusionsMap (env := Demo.env) Demo.listFiles "/ws" false
    (Demo.start Demo.uncached false "/ws/App1")
  = (Thrown (TypeError "Cannot read properties of undefined"),
     Demo.start Demo.uncached false "/ws/App1").
Proof.
  exact (getInclusionsMap_cannot_build_index (env := Demo.env) 64 "/ws" false
           (Demo.start Demo.uncached false "/ws/App1") eq_refl eq_refl eq_refl).
Defined.

(** * Further properties *)

(** ** [Array.prototype.sort] *)

Section Sorting.
Context {A : Type} (le : A -> A -> bool).

Lemma insert_Permutation (x : A) (l : list A) : Permutation (Js.insert le x l) (x :: l).
Proof.
  induction l as [|y r IH]; cbn [Js.insert]; [reflexivity|].
  destruct (le x y); [reflexivity|].
  rewrite IH. apply perm_swap.
Qed.

Lemma sortBy_Permutation (l : list A) : Permutation (Js.sortBy le l) l.
Proof.
  unfold Js.sortBy. induction l as [|x r IH]; cbn [fold_right]; [reflexivity|].
  rewrite insert_Permutation, IH. reflexivity.
Qed.

Hypothesis le_total : forall a b, le a b = true \/ le b a = true.

Lemma insert_Sorted (x : A) (l : list A) :
  Sorted (fun a b => le a b = true) l ->
  Sorted (fun a b => le a b = true) (Js.insert le x l).
Proof.
  induction l as [|y r IH]; intros Hl; cbn [Js.insert].
  - repeat constructor.
  - destruct (le x y) eqn:Hxy.
    + constructor; [exact Hl|constructor; exact Hxy].
    + inversion Hl as [|? ? Hr Hhd]; subst.
      constructor; [apply IH; exact Hr|].
      destruct r as [|z r]; cbn [Js.insert].
      * constructor. destruct (le_total x y); congruence.
      * destruct (le x z); constructor.
        -- destruct (le_total x y); congruence.
        -- inversion Hhd; assumption.
Qed.

Lemma sortBy_Sorted (l : list A) : Sorted (fun a b => le a b = true) (Js.sortBy le l).
Proof.
  unfold Js.sortBy. induction l as [|x r IH]; cbn [fold_right]; [constructor|].
  apply insert_Sorted. exact IH.
Qed.

(** Sorting a list that is in order changes nothing. *)
Lemma sortBy_of_Sorted (l : list A) :
  Sorted (fun a b => le a b = true) l -> Js.sortBy le l = l.
Proof.
  unfold Js.sortBy. induction l as [|x r IH]; intros Hl; [reflexivity|].
  inversion Hl as [|? ? Hr Hhd]; subst. cbn [fold_right]. rewrite (IH Hr).
  destruct r as [|y r]; [reflexivity|]. cbn [Js.insert].
  inversion Hhd as [|? ? Hxy]; subst. rewrite Hxy. reflexivity.
Qed.

End Sorting.

Lemma Sorted_snoc {A} (R : A -> A -> Prop) (l : list A) (x : A) :
  Sorted R l -> (forall y, hd_error (rev l) = Some y -> R y x) -> Sorted R (l ++ [x]).
Proof.
  induction l as [|a r IH]; intros Hl Hlast; [repeat constructor|].
  inversion Hl as [|? ? Hr Hhd]; subst. cbn [app]. constructor.
  - apply IH; [exact Hr|]. intros y Hy. apply Hlast. cbn [rev].
    destruct (rev r) as [|z w]; [discriminate|]. exact Hy.
  - destruct r as [|b r]; cbn [app].
    + constructor. apply Hlast. reflexivity.
    + constructor. inversion Hhd; assumption.
Qed.

Lemma Sorted_rev {A} (R : A -> A -> Prop) (l : list A) :
  Sorted R l -> Sorted (fun a b => R b a) (rev l).
Proof.
  induction l as [|x r IH]; intros Hl; [constructor|].
  inversion Hl as [|? ? Hr Hhd]; subst. cbn [rev]. apply Sorted_snoc; [apply IH; exact Hr|].
  intros y Hy. rewrite rev_involutive in Hy. destruct r as [|z r]; [discriminate|].
  injection Hy as <-. inversion Hhd; assumption.
Qed.

(** ** [getMatchingSWCs] *)

Lemma arrayIncludes_In (x : string) (a : list string) :
  Js.arrayIncludes x a = true <-> In x a.
Proof.
  unfold Js.arrayIncludes. rewrite existsb_exists. split.
  - intros (y & Hy & Heq). apply String.eqb_eq in Heq. subst y. exact Hy.
  - intros Hin. exists x. split; [exact Hin|apply String.eqb_refl].
Qed.

Lemma filterRecords_kept (searchField : Field) (fqn : string)
    (inclusions kept : list LibraryRecord) :
  filterRecords searchField fqn inclusions = Returned kept ->
  forall record, In record kept -> In record inclusions.
Proof.
  revert kept. induction inclusions as [|r rest IH]; intros kept Hrun record Hin.
  - injection Hrun as <-. exact Hin.
  - cbn [filterRecords] in Hrun.
    destruct (recordMatches searchField fqn r) as [keep|e]; [|discriminate].
    cbn [obind] in Hrun.
    destruct (filterRecords searchField fqn rest) as [kept'|e]; [|discriminate].
    cbn [obind] in Hrun. injection Hrun as <-.
    destruct keep; [destruct Hin as [<-|Hin]|]; [left; reflexivity| |];
      right; apply (IH kept' eq_refl); exact Hin.
Qed.

Lemma pushMatches_NoDup (matchingSWCs swcPaths : list string) :
  NoDup swcPaths -> NoDup (pushMatches matchingSWCs swcPaths).
Proof.
  unfold pushMatches. revert swcPaths.
  induction matchingSWCs as [|m rest IH]; intros swcPaths Hnd; [exact Hnd|].
  cbn [fold_left]. apply IH.
  destruct (truthy m); [|exact Hnd]. cbn [andb].
  destruct (Js.arrayIncludes m swcPaths) eqn:Hin; [exact Hnd|]. cbn [negb].
  apply NoDup_app; [exact Hnd|repeat constructor; intros []|].
  intros x Hx [<-|[]]. apply arrayIncludes_In in Hx. congruence.
Qed.

Lemma resolveFqn_resolved (inclusions : list LibraryRecord) (searchField : Field)
    (fqn : string) (swcPaths swcPaths' : list string) (st st' : State) :
  resolveFqn inclusions searchField fqn swcPaths st = (Returned swcPaths', st') ->
  resolved inclusions swcPaths -> resolved inclusions swcPaths'.
Proof.
  unfold resolveFqn, bind, liftOutcome. intros Hrun [Hnd Hfrom].
  destruct (filterRecords searchField fqn inclusions) as [kept|e] eqn:Hkept; [|discriminate].
  assert (Hsub : forall matching,
             (forall p, In p matching -> In p (map swcPath kept)) ->
             resolved inclusions (pushMatches matching swcPaths)).
  { intros matching Hm. split; [apply pushMatches_NoDup; exact Hnd|].
    intros path Hpath. apply In_pushMatches in Hpath.
    destruct Hpath as [Hold|[Hnew Htruthy]]; [apply Hfrom; exact Hold|].
    split; [exact Htruthy|]. apply Hm, in_map_iff in Hnew.
    destruct Hnew as (record & Hpath & Hin). exists record.
    split; [apply (filterRecords_kept _ _ _ _ Hkept); exact Hin|exact Hpath]. }
  destruct (negb (havePartialFqn fqn) && Nat.ltb 1 (List.length (map swcPath kept))).
  - destruct (print_ _ st) as [[[]|e] st1]; [|discriminate].
    unfold ret in Hrun. injection Hrun as <- _. apply Hsub.
    intros p Hp. destruct (map swcPath kept) as [|q qs]; [destruct Hp|].
    cbn [firstn In] in Hp. destruct Hp as [<-|[]]. left. reflexivity.
  - unfold ret in Hrun. injection Hrun as <- _. apply Hsub. auto.
Qed.

Lemma resolveFqns_resolved (inclusions : list LibraryRecord) (searchField : Field)
    (classFQNs swcPaths swcPaths' : list string) (st st' : State) :
  resolveFqns inclusions searchField classFQNs swcPaths st = (Returned swcPaths', st') ->
  resolved inclusions swcPaths -> resolved inclusions swcPaths'.
Proof.
  revert swcPaths st. induction classFQNs as [|fqn rest IH]; intros swcPaths st Hrun Hres.
  - injection Hrun as <- _. exact Hres.
  - cbn [resolveFqns] in Hrun. unfold bind in Hrun.
    destruct (resolveFqn inclusions searchField fqn swcPaths st) as [[acc|e] st1] eqn:Hone;
      [|discriminate].
    apply (IH _ _ Hrun). apply (resolveFqn_resolved _ _ _ _ _ _ _ Hone Hres).
Qed.

(** The list that [getMatchingSWCs] returns holds no path twice, holds
    only non-empty paths of records of the index, and is in descending
    order. *)
Theorem getMatchingSWCs_result_shape (inclusions : list LibraryRecord)
    (classFQNs : list string) (searchField : option Field) (st st' : State)
    (swcPaths : list string) :
  getMatchingSWCs inclusions classFQNs searchField st = (Returned swcPaths, st') ->
  NoDup swcPaths
  /\ (forall path, In path swcPaths ->
        truthy path = true /\ exists record, In record inclusions /\ swcPath record = path)
  /\ descending swcPaths.
Proof.
  unfold getMatchingSWCs. intros Hrun.
  assert (Hempty : NoDup (@nil string)
                   /\ (forall path, In path [] ->
                         truthy path = true
                         /\ exists record, In record inclusions /\ swcPath record = path)
                   /\ descending []).
  { split; [constructor|]. split; [intros path []|constructor]. }
  destruct inclusions as [|r0 rest]; [injection Hrun as <- _; exact Hempty|].
  destruct classFQNs as [|fqn0 fqns]; [injection Hrun as <- _; exact Hempty|].
  unfold bind in Hrun.
  destruct (resolveFqns _ _ _ _ st) as [[acc|e] st1] eqn:Hacc; [|discriminate].
  unfold ret in Hrun. injection Hrun as <- _.
  destruct (resolveFqns_resolved _ _ _ _ _ _ _ Hacc) as [Hnd Hfrom].
  { split; [constructor|intros path []]. }
  assert (Hperm : Permutation (rev (Js.sort acc)) acc).
  { rewrite <- Permutation_rev. apply sortBy_Permutation. }
  repeat split.
  - apply (Permutation_NoDup (Permutation_sym Hperm) Hnd).
  - apply Hfrom. apply (Permutation_in _ Hperm). assumption.
  - apply Hfrom. apply (Permutation_in _ Hperm). assumption.
  - unfold descending. apply (Sorted_rev (fun a b => String.leb a b = true)).
    apply sortBy_Sorted. apply String.leb_total.
Qed.

Lemma getMatchingSWCs_result_shape_witness :
  NoDup ["/ws/L2/bin/l2.swc"; "/ws/L1/bin/l1.swc"]
  /\ (forall path, In path ["/ws/L2/bin/l2.swc"; "/ws/L1/bin/l1.swc"] ->
        truthy path = true
        /\ exists record, In record Demo.collidingIndex /\ swcPath record = path)
  /\ descending ["/ws/L2/bin/l2.swc"; "/ws/L1/bin/l1.swc"].
Proof.
  apply (getMatchingSWCs_result_shape Demo.collidingIndex ["a.B"; "a.C"] None
           (Demo.start Demo.noDisk true "/ws/App1") (Demo.start Demo.noDisk true "/ws/App1")).
  vm_compute. reflexivity.
Defined.

(** An exact class that at most one record provides resolves to the
    path of that record, if it is not empty, and the state is as it
    was. *)
Theorem getMatchingSWCs_without_collision (inclusions : list LibraryRecord)
    (searchField : Field) (fqn : string) (st : State) :
  havePartialFqn fqn = false ->
  List.length (candidates inclusions searchField fqn) <= 1 ->
  getMatchingSWCs inclusions [fqn] (Some searchField) st
  = (Returned (filter truthy (candidates inclusions searchField fqn)), st).
Proof.
  intros Hexact Hone. unfold getMatchingSWCs.
  destruct inclusions as [|r0 rest]; [reflexivity|].
  cbn [resolveFqns]. unfold resolveFqn, bind, liftOutcome.
  rewrite (filterRecords_exact _ _ _ Hexact), Hexact. unfold candidates in *.
  destruct (map swcPath (filter (provides searchField fqn) (r0 :: rest))) as [|p [|q qs]].
  - reflexivity.
  - cbn [negb andb List.length Nat.ltb Nat.leb]. unfold ret, pushMatches.
    cbn [fold_left filter]. destruct (truthy p); reflexivity.
  - cbn [List.length] in Hone. lia.
Qed.

Lemma getMatchingSWCs_without_collision_witness :
  getMatchingSWCs Demo.collidingIndex ["a.C"] (Some swcClassesField)
    (Demo.start Demo.noDisk false "/ws/App1")
  = (Returned ["/ws/L2/bin/l2.swc"], Demo.start Demo.noDisk false "/ws/App1").
Proof.
  apply (getMatchingSWCs_without_collision Demo.collidingIndex swcClassesField "a.C"
           (Demo.start Demo.noDisk false "/ws/App1")).
  - reflexivity.
  - vm_compute. lia.
Defined.

Lemma resolveFqns_exact_return (inclusions : list LibraryRecord) (searchField : Field)
    (classFQNs swcPaths : list string) (st : State) :
  Forall (fun fqn => havePartialFqn fqn = false) classFQNs ->
  exists paths st',
    resolveFqns inclusions searchField classFQNs swcPaths st = (Returned paths, st')
    /\ fs st' = fs st.
Proof.
  intros Hexact. revert swcPaths st.
  induction Hexact as [|fqn rest Hfqn _ IH]; intros swcPaths st.
  - exists swcPaths, st. split; reflexivity.
  - cbn [resolveFqns]. unfold bind at 1. unfold resolveFqn, bind, liftOutcome.
    rewrite (filterRecords_exact _ _ _ Hfqn), Hfqn. cbn [negb andb].
    destruct (Nat.ltb 1 _).
    + destruct (print_returns [collisionWarning fqn
                   (map swcPath (filter (provides searchField fqn) inclusions))] st)
        as (Hret & Hfs & _).
      destruct (print_ _ st) as [o st1]. cbn [fst snd] in Hret, Hfs. subst o.
      unfold ret. destruct (IH (pushMatches (firstn 1
                   (map swcPath (filter (provides searchField fqn) inclusions))) swcPaths) st1)
        as (paths & st' & Hrun & Hfs').
      exists paths, st'. split; [exact Hrun|congruence].
    + unfold ret. apply IH.
Qed.

(** A request of exact classes never throws, whatever fields the
    records of the index have, and leaves the disk as it was. *)
Theorem getMatchingSWCs_exact_requests_return (inclusions : list LibraryRecord)
    (classFQNs : list string) (searchField : option Field) (st : State) :
  Forall (fun fqn => havePartialFqn fqn = false) classFQNs ->
  exists paths st',
    getMatchingSWCs inclusions classFQNs searchField st = (Returned paths, st')
    /\ fs st' = fs st.
Proof.
  intros Hexact. unfold getMatchingSWCs.
  destruct inclusions as [|r0 rest]; [exists [], st; split; reflexivity|].
  destruct classFQNs as [|fqn0 fqns]; [exists [], st; split; reflexivity|].
  destruct (resolveFqns_exact_return (r0 :: rest)
              (match searchField with Some f => f | None => swcClassesField end)
              (fqn0 :: fqns) [] st Hexact) as (paths & st' & Hrun & Hfs).
  exists (rev (Js.sort paths)), st'. split; [|exact Hfs].
  unfold bind. rewrite Hrun. reflexivity.
Qed.

Lemma getMatchingSWCs_exact_requests_return_witness :
  exists paths st',
    getMatchingSWCs Demo.collidingIndex ["a.B"; "a.C"] (Some globalSwcClassesField)
      (Demo.start Demo.noDisk false "/ws/App1") = (Returned paths, st')
    /\ fs st' = Demo.noDisk.
Proof.
  apply (getMatchingSWCs_exact_requests_return Demo.collidingIndex ["a.B"; "a.C"]
           (Some globalSwcClassesField) (Demo.start Demo.noDisk false "/ws/App1")).
  repeat constructor.
Defined.

Lemma filterRecords_missing_field (searchField : Field) (fqn : string)
    (inclusions : list LibraryRecord) :
  havePartialFqn fqn = true ->
  (exists record, In record inclusions /\ fieldOf searchField record = None) ->
  filterRecords searchField fqn inclusions
  = Thrown (TypeError "Cannot read properties of undefined (reading 'filter')").
Proof.
  intros Hwild (record & Hin & Hnone).
  induction inclusions as [|r rest IH]; [destruct Hin|].
  cbn [filterRecords]. unfold recordMatches. rewrite Hwild.
  destruct (fieldOf searchField r) as [classes|] eqn:Hfield; [|reflexivity].
  cbn [obind]. destruct Hin as [->|Hin]; [congruence|].
  rewrite (IH Hin). reflexivity.
Qed.

(** A package wild card on an index of which a record lacks the
    searched field, as the records read from archives lack
    [globalSwcClasses], throws a [TypeError], and the state is as it
    was. *)
Theorem getMatchingSWCs_wildcard_missing_field (inclusions : list LibraryRecord)
    (searchField : Field) (fqn : string) (others : list string) (st : State) :
  havePartialFqn fqn = true ->
  (exists record, In record inclusions /\ fieldOf searchField record = None) ->
  getMatchingSWCs inclusions (fqn :: others) (Some searchField) st
  = (Thrown (TypeError "Cannot read properties of undefined (reading 'filter')"), st).
Proof.
  intros Hwild Hmissing. unfold getMatchingSWCs.
  destruct inclusions as [|r0 rest]; [destruct Hmissing as (r & [] & _)|].
  cbn [resolveFqns]. unfold resolveFqn, bind, liftOutcome.
  rewrite (filterRecords_missing_field _ _ _ Hwild Hmissing). reflexivity.
Qed.

Lemma getMatchingSWCs_wildcard_missing_field_witness :
  getMatchingSWCs Demo.collidingIndex ["a.*"] (Some globalSwcClassesField)
    (Demo.start Demo.noDisk false "/ws/App1")
  = (Thrown (TypeError "Cannot read properties of undefined (reading 'filter')"),
     Demo.start Demo.noDisk false "/ws/App1").
Proof.
  apply (getMatchingSWCs_wildcard_missing_field Demo.collidingIndex globalSwcClassesField
           "a.*" [] (Demo.start Demo.noDisk false "/ws/App1")).
  - reflexivity.
  - exists (mkRecord "/ws/L1/bin/l1.swc" (Some ["a.B"]) None).
    split; [left; reflexivity|reflexivity].
Defined.

(** ** [consolidateInclusions] and the index it builds *)

Lemma compareInclusions_total (a b : LibraryRecord) :
  (compareInclusions a b <=? 0)%Z = true \/ (compareInclusions b a <=? 0)%Z = true.
Proof.
  unfold compareInclusions.
  destruct (Z.eqb_spec (count (swcClasses a) - count (swcClasses b)) 0);
    destruct (Z.eqb_spec (count (swcClasses b) - count (swcClasses a)) 0);
    rewrite !Z.leb_le; lia.
Qed.

Lemma consolidateInclusions_Permutation (inclusionEntry : LibraryRecord)
    (inclusions : list LibraryRecord) :
  Permutation (consolidateInclusions inclusionEntry inclusions)
    (if hasClasses inclusionEntry then inclusionEntry :: inclusions else inclusions).
Proof.
  unfold consolidateInclusions. rewrite sortBy_Permutation. fold (hasClasses inclusionEntry).
  destruct (hasClasses inclusionEntry); [|reflexivity].
  rewrite Permutation_app_comm. reflexivity.
Qed.

Lemma consolidateInclusions_Sorted (inclusionEntry : LibraryRecord)
    (inclusions : list LibraryRecord) :
  Sorted byCounts (consolidateInclusions inclusionEntry inclusions).
Proof.
  unfold consolidateInclusions, byCounts.
  apply (sortBy_Sorted (fun a b => (compareInclusions a b <=? 0)%Z)).
  apply compareInclusions_total.
Qed.

(** [consolidateInclusions] adds the entry at most once, and only when
    it has a class; it loses no record; and its result is in ascending
    order of the number of qualified classes, then of unqualified
    ones. *)
Theorem consolidateInclusions_inserts_and_sorts (inclusionEntry : LibraryRecord)
    (inclusions : list LibraryRecord) :
  Permutation (consolidateInclusions inclusionEntry inclusions)
    (if hasClasses inclusionEntry then inclusionEntry :: inclusions else inclusions)
  /\ Sorted byCounts (consolidateInclusions inclusionEntry inclusions).
Proof.
  split; [apply consolidateInclusions_Permutation|apply consolidateInclusions_Sorted].
Qed.

Section IndexingEffects.
Context {env : NodeEnv}.
Variable listFiles : FS -> string -> list string -> bool -> bool -> option (list string).

Lemma readonly_ret {A} (a : A) : readonly (ret a).
Proof. intros st. reflexivity. Qed.

Lemma readonly_withFs {A} (f : FS -> A) : readonly (withFs f).
Proof. intros st. reflexivity. Qed.

Lemma readonly_reading {A} (f : FS -> Outcome A) : readonly (reading f).
Proof. intros st. reflexivity. Qed.

Lemma readonly_liftOutcome {A} (o : Outcome A) : readonly (liftOutcome o).
Proof. intros st. reflexivity. Qed.

Lemma readonly_bind {A B} (c : M A) (k : A -> M B) :
  readonly c -> (forall a, readonly (k a)) -> readonly (bind c k).
Proof.
  intros Hc Hk st. unfold bind. specialize (Hc st).
  destruct (c st) as [[a|e] st']; cbn [snd] in *; [|exact Hc].
  rewrite (Hk a st'). exact Hc.
Qed.

Lemma readonly_print (args : list string) : readonly (print_ args).
Proof. intros st. apply print_returns. Qed.

Lemma readonly_unless (silentMode : bool) (c : M unit) :
  readonly c -> readonly (unless silentMode c).
Proof. intros Hc. destruct silentMode; [apply readonly_ret|exact Hc]. Qed.

Lemma readonly_getSrcFolderOf (projectFolder : string) (bypassWarning : bool) :
  readonly (getSrcFolderOf listFiles projectFolder bypassWarning).
Proof.
  intros st. unfold getSrcFolderOf.
  destruct (Fs.existsSync (fs st) projectFolder); [|reflexivity].
  apply readonly_bind; [apply readonly_liftOutcome|]. intros listed.
  apply readonly_bind; [|intros _; apply readonly_ret].
  destruct (_ && _); [apply readonly_print|apply readonly_ret].
Qed.

Lemma readonly_indexProject (silentMode : bool) (dirPath : string)
    (inclusions : list LibraryRecord) :
  readonly (indexProject listFiles silentMode dirPath inclusions).
Proof.
  unfold indexProject. apply readonly_bind; [apply readonly_reading|]. intros inclusions'.
  apply readonly_bind.
  { intros st. destruct (currentProjectFolder st); reflexivity. }
  intros current. apply readonly_bind; [apply readonly_getSrcFolderOf|]. intros found.
  destruct found as [sourceFolder|]; [|apply readonly_ret].
  apply readonly_bind; [apply readonly_withFs|]. intros present.
  destruct (_ && _); [|apply readonly_ret].
  apply readonly_bind; [apply readonly_reading|]. intros projectsApps.
  destruct projectsApps; [|apply readonly_ret].
  apply readonly_bind; [apply readonly_reading|]. intros classFiles.
  apply readonly_bind; [|intros _; apply readonly_ret].
  destruct (filter _ _); [apply readonly_ret|].
  apply readonly_unless, readonly_print.
Qed.

Lemma readonly_indexProjects (silentMode : bool) (workspaceDirs : list string)
    (inclusions : list LibraryRecord) :
  readonly (indexProjects listFiles silentMode workspaceDirs inclusions).
Proof.
  revert inclusions. induction workspaceDirs as [|dirPath rest IH]; intros inclusions;
    [apply readonly_ret|].
  cbn [indexProjects]. apply readonly_bind; [apply readonly_indexProject|intros a; apply IH].
Qed.

Lemma readonly_tryCache (cachedInclusionsFile : string) (silentMode : bool) :
  readonly (tryCache cachedInclusionsFile silentMode).
Proof.
  unfold tryCache. apply readonly_bind; [apply readonly_withFs|]. intros present.
  destruct present; [|apply readonly_ret].
  apply readonly_bind; [apply readonly_reading|]. intros content.
  destruct (truthy _); [|apply readonly_ret].
  destruct (JSON_parse _);
    (apply readonly_bind; [apply readonly_unless, readonly_print|intros _; apply readonly_ret]).
Qed.

Lemma writeFileSync_elsewhere (d d' : FS) (p data q : string) :
  Fs.writeFileSync d p data = Some d' -> q <> p -> q <> path_dirname p -> d' q = d q.
Proof.
  unfold Fs.writeFileSync. intros Hwrite Hp Hdir.
  destruct (d p) as [[c0 t0|names t0]|];
    destruct (d (path_dirname p)) as [[c1 t1|names1 t1]|];
    try discriminate; injection Hwrite as <-;
    destruct (String.eqb_spec q p); try contradiction;
    destruct (String.eqb_spec q (path_dirname p)); try contradiction; reflexivity.
Qed.

(** Whatever [getInclusionsMap] does, scan or not, succeed or throw, it
    changes nothing on the disk but its cache file and the directory
    that lists it. *)
Theorem getInclusionsMap_writes_cache_only (searchPath : string) (silentMode : bool)
    (st : State) (q : string) :
  q <> path_resolve searchPath inclusionsFileName ->
  q <> path_dirname (path_resolve searchPath inclusionsFileName) ->
  fs (snd (getInclusionsMap listFiles searchPath silentMode st)) q = fs st q.
Proof.
  intros Hcache Hdir. unfold getInclusionsMap.
  set (cache := path_resolve searchPath inclusionsFileName) in *.
  unfold bind at 1. pose proof (readonly_tryCache cache silentMode st) as Htry.
  destruct (tryCache cache silentMode st) as [[[[first cacheExists] cacheCorrupted]|e] st1];
    cbn [snd] in *; [|rewrite Htry; reflexivity].
  destruct (negb cacheExists || cacheCorrupted); [|cbn [ret snd]; rewrite Htry; reflexivity].
  rewrite <- Htry. unfold rebuildInclusions, bind, reading.
  destruct (requireArray _) as [dirs|e]; [|reflexivity].
  pose proof (readonly_indexProjects silentMode dirs first st1) as Hbuilt.
  destruct (indexProjects listFiles silentMode dirs first st1) as [[built|e] st2];
    cbn [snd] in *; [|rewrite Hbuilt; reflexivity].
  destruct (Fs.writeFileSync (fs st2) cache (JSON_stringify built)) as [d'|] eqn:Hwrite;
    [|cbn [snd]; rewrite Hbuilt; reflexivity].
  pose proof (readonly_unless silentMode _ (readonly_print [wroteMessage cache])
                (setFs d' st2)) as Hprint.
  destruct (unless silentMode _ (setFs d' st2)) as [[[]|e] st3]; cbn [snd fs setFs ret] in *;
    rewrite Hprint, <- Hbuilt; apply (writeFileSync_elsewhere _ _ _ _ _ Hwrite Hcache Hdir).
Qed.

(** An archive whose inspection fails contributes no record: a library
    folder of such archives leaves a consolidated index as it was. *)
Theorem indexSwcFiles_skips_failed_archives (d : FS) (libFiles : list string)
    (inclusions : list LibraryRecord) :
  (forall swcPath, In swcPath libFiles ->
     fst (shell_exec d (Js.replaceFirst "%s" (StringUtils.smartQuotePath swcPath)
                          lookIntoZipCmd)) <> 0%Z) ->
  Sorted byCounts inclusions ->
  indexSwcFiles d libFiles inclusions = Returned inclusions.
Proof.
  intros Hfail Hsorted. induction libFiles as [|swcPath rest IH]; [reflexivity|].
  cbn [indexSwcFiles].
  rewrite (readSwcClasses_failure_is_empty swcPath d)
    by (apply Hfail; left; reflexivity).
  cbn [obind]. unfold consolidateInclusions.
  change ((0 <? count (swcClasses (mkRecord swcPath (Some []) None)))%Z
          || (0 <? count (globalSwcClasses (mkRecord swcPath (Some []) None)))%Z)
    with false.
  cbv beta iota. rewrite (sortBy_of_Sorted _ _ Hsorted).
  apply IH. intros swc Hin. apply Hfail. right. exact Hin.
Qed.

End IndexingEffects.

Lemma getInclusionsMap_writes_cache_only_witness :
  fs (snd (getInclusionsMap (env := Demo.env) Demo.listFiles "/ws" true
             (Demo.start Demo.uncached false "/ws/App1"))) "/ws/LibA/bin/liba.swc"
  = Some (File "swc" 20%Z).
Proof.
  apply (getInclusionsMap_writes_cache_only (env := Demo.env) Demo.listFiles "/ws" true
           (Demo.start Demo.uncached false "/ws/App1") "/ws/LibA/bin/liba.swc");
    vm_compute; discriminate.
Defined.

Lemma indexSwcFiles_skips_failed_archives_witness :
  indexSwcFiles (env := Demo.env) Demo.workspace ["/ws/App1/lib/broken.swc"] Demo.index
  = Returned Demo.index.
Proof.
  apply (indexSwcFiles_skips_failed_archives (env := Demo.env) Demo.workspace
           ["/ws/App1/lib/broken.swc"] Demo.index).
  - intros swcPath [<-|[]]. vm_compute. discriminate.
  - repeat constructor.
Defined.

(** ** [toBinaryFileName] *)

Lemma lowered_alnum_is_fileNameChar (c : ascii) :
  isAlnum (Js.lowerChar c) = true -> isFileNameChar (Js.lowerChar c) = true.
Proof. destruct c as [[] [] [] [] [] [] [] []]; vm_compute; auto. Qed.

Lemma fileNameChar_fixed (c : ascii) :
  isFileNameChar c = true -> Js.isSpace c = false /\ Js.lowerChar c = c.
Proof. destruct c as [[] [] [] [] [] [] [] []]; vm_compute; auto; discriminate. Qed.

Lemma alnum_not_hyphen (c : ascii) : isAlnum c = true -> Ascii.eqb c "-"%char = false.
Proof. destruct c as [[] [] [] [] [] [] [] []]; vm_compute; auto. Qed.

Lemma collapseRuns_chars (inRun : bool) (s : string) :
  allChars isFileNameChar (collapseRuns inRun (Js.toLowerCase s)) = true.
Proof.
  revert inRun. induction s as [|c r IH]; intros inRun; [reflexivity|].
  cbn [Js.toLowerCase collapseRuns].
  destruct (isAlnum (Js.lowerChar c)) eqn:Halnum.
  - cbn [allChars]. rewrite (lowered_alnum_is_fileNameChar c Halnum). apply IH.
  - destruct inRun; [apply IH|]. cbn [allChars]. rewrite IH. reflexivity.
Qed.

Lemma collapseRuns_hyphens (s : string) :
  forall inRun,
    singleHyphens (collapseRuns inRun s) = true
    /\ startsWithHyphen (collapseRuns true s) = false.
Proof.
  induction s as [|c r IH]; intros inRun; [split; reflexivity|].
  cbn [collapseRuns]. destruct (isAlnum c) eqn:Halnum.
  - cbn [singleHyphens startsWithHyphen]. rewrite (alnum_not_hyphen c Halnum).
    split; [apply IH|reflexivity].
  - destruct (IH true) as [Hsingle Hstart]. destruct inRun; [split; assumption|].
    cbn [singleHyphens]. rewrite Hstart, Hsingle, andb_false_r. split; reflexivity.
Qed.

(** A binary file name is made of lower-case letters, digits and
    hyphens, and no two hyphens follow each other. *)
Theorem toBinaryFileName_shape (rawName : string) :
  allChars isFileNameChar (toBinaryFileName rawName) = true
  /\ singleHyphens (toBinaryFileName rawName) = true.
Proof.
  unfold toBinaryFileName. split; [apply collapseRuns_chars|apply collapseRuns_hyphens].
Qed.

Lemma trim_fileName (s : string) : allChars isFileNameChar s = true -> Js.trim s = s.
Proof.
  intros Hs. unfold Js.trim.
  assert (Hstart : Js.trimStart s = s).
  { destruct s as [|c r]; [reflexivity|]. cbn [allChars] in Hs.
    apply andb_prop in Hs. destruct Hs as [Hc _].
    cbn [Js.trimStart]. rewrite (proj1 (fileNameChar_fixed c Hc)). reflexivity. }
  rewrite Hstart. induction s as [|c r IH]; [reflexivity|].
  cbn [allChars] in Hs. apply andb_prop in Hs. destruct Hs as [Hc Hr].
  cbn [Js.trimEnd]. rewrite IH.
  - destruct r; [rewrite (proj1 (fileNameChar_fixed c Hc))|]; reflexivity.
  - exact Hr.
  - destruct r as [|c' r']; [reflexivity|]. cbn [allChars] in Hr.
    apply andb_prop in Hr. destruct Hr as [Hc' _].
    cbn [Js.trimStart]. rewrite (proj1 (fileNameChar_fixed c' Hc')). reflexivity.
Qed.

Lemma toLowerCase_fileName (s : string) :
  allChars isFileNameChar s = true -> Js.toLowerCase s = s.
Proof.
  induction s as [|c r IH]; intros Hs; [reflexivity|].
  cbn [allChars] in Hs. apply andb_prop in Hs. destruct Hs as [Hc Hr].
  cbn [Js.toLowerCase]. rewrite (proj2 (fileNameChar_fixed c Hc)), (IH Hr). reflexivity.
Qed.

Lemma collapseRuns_head (s : string) :
  collapseRuns true (collapseRuns true s) = collapseRuns false (collapseRuns true s).
Proof.
  induction s as [|c r IH]; [reflexivity|].
  cbn [collapseRuns]. destruct (isAlnum c) eqn:Halnum; [|exact IH].
  cbn [collapseRuns]. rewrite Halnum. reflexivity.
Qed.

Lemma collapseRuns_again (s : string) :
  forall inRun, collapseRuns false (collapseRuns inRun s) = collapseRuns inRun s.
Proof.
  induction s as [|c r IH]; intros inRun; [reflexivity|].
  cbn [collapseRuns]. destruct (isAlnum c) eqn:Halnum.
  - cbn [collapseRuns]. rewrite Halnum, IH. reflexivity.
  - destruct inRun; [apply IH|].
    cbn [collapseRuns]. change (isAlnum "-"%char) with false. cbv beta iota.
    rewrite collapseRuns_head, IH. reflexivity.
Qed.

(** Naming a name changes nothing: [toBinaryFileName] is idempotent. *)
Theorem toBinaryFileName_idempotent (rawName : string) :
  toBinaryFileName (toBinaryFileName rawName) = toBinaryFileName rawName.
Proof.
  assert (Hchars : allChars isFileNameChar (toBinaryFileName rawName) = true)
    by apply collapseRuns_chars.
  unfold toBinaryFileName at 1.
  rewrite (trim_fileName _ Hchars), (toLowerCase_fileName _ Hchars).
  unfold toBinaryFileName. apply collapseRuns_again.
Qed.

(** ** The filters of [listFiles] *)

Section Filters.
Context {env : NodeEnv}.

(** A pattern without wild card, and that does not spell the
    place-holder of [wildcardToRegex], matches the text equal to it and
    no other: the expression is anchored at both ends, so that a file
    type such as [as] keeps no path but the path [as]. *)
Theorem searchWithWildcards_literal (text pattern : string) :
  allChars isLiteralChar pattern = true ->
  Js.includes "___ANYCHAR" pattern = false ->
  FileManagementUtils.searchWithWildcards text pattern = String.eqb pattern text.
Proof.
  unfold FileManagementUtils.searchWithWildcards. intros Hliteral _. revert text Hliteral.
  induction pattern as [|p r IH]; intros text Hliteral.
  - destruct text; reflexivity.
  - cbn [allChars] in Hliteral. apply andb_prop in Hliteral.
    destruct Hliteral as [Hp Hr]. unfold isLiteralChar in Hp.
    apply andb_prop in Hp. destruct Hp as [Hstar Hany].
    apply negb_true_iff in Hstar. apply negb_true_iff in Hany.
    cbn [FileManagementUtils.searchWithWildcards_]. rewrite Hstar.
    destruct text as [|c text']; [reflexivity|].
    rewrite Hany, (IH text' Hr). reflexivity.
Qed.

Lemma searchWithWildcards_star (rest text : string) :
  FileManagementUtils.searchWithWildcards_ (String "*"%char rest) text
  = FileManagementUtils.searchWithWildcards_ rest text
    || match text with
       | String c text' =>
           negb (FileManagementUtils.isLineTerminator c)
           && FileManagementUtils.searchWithWildcards_ (String "*"%char rest) text'
       | EmptyString => false
       end.
Proof. destruct text; reflexivity. Qed.

Lemma searchWithWildcards_char (p : ascii) (rest : string) (c : ascii) (text : string) :
  Ascii.eqb p "*"%char = false ->
  FileManagementUtils.searchWithWildcards_ (String p rest) (String c text)
  = (if Ascii.eqb p "?"%char then negb (FileManagementUtils.isLineTerminator c)
     else Ascii.eqb p c)
    && FileManagementUtils.searchWithWildcards_ rest text.
Proof.
  intros Hp. cbn [FileManagementUtils.searchWithWildcards_]. rewrite Hp. reflexivity.
Qed.

(** What [*] stands for: the pattern [*rest] matches a text exactly
    when the text is a run of characters without a line terminator
    followed by a text that [rest] matches. *)
Lemma searchWithWildcards_star_splits (rest text : string) :
  FileManagementUtils.searchWithWildcards_ (String "*"%char rest) text = true
  <-> exists run tail,
        text = run ++ tail /\ onOneLine run = true
        /\ FileManagementUtils.searchWithWildcards_ rest tail = true.
Proof.
  induction text as [|c text' IH]; rewrite searchWithWildcards_star.
  - rewrite orb_false_r. split.
    + intros H. exists "", "". repeat split. exact H.
    + intros (run & tail & Heq & _ & H). destruct run; [|discriminate].
      cbn [append] in Heq. subst tail. exact H.
  - rewrite orb_true_iff, andb_true_iff, IH. split.
    + intros [H|[Hc (run & tail & -> & Hrun & H)]].
      * exists "", (String c text'). repeat split. exact H.
      * exists (String c run), tail. repeat split; [|exact H].
        unfold onOneLine in *. cbn [allChars]. rewrite Hc, Hrun. reflexivity.
    + intros (run & tail & Heq & Hrun & H). destruct run as [|c0 run].
      * cbn [append] in Heq. subst tail. left. exact H.
      * cbn [append] in Heq. injection Heq as <- ->. right.
        unfold onOneLine in Hrun. cbn [allChars] in Hrun.
        apply andb_prop in Hrun. destruct Hrun as [Hc Hrun].
        split; [exact Hc|]. exists run, tail. repeat split; assumption.
Qed.

(** The filter [*.*] of [allFilesType] keeps exactly the paths, on one
    line, that hold a dot somewhere: a file without extension is left
    out unless a directory above it has a dot in its name. *)
Theorem searchWithWildcards_allFilesType (text : string) :
  FileManagementUtils.searchWithWildcards text "*.*" = true
  <-> exists before after,
        text = before ++ "." ++ after
        /\ onOneLine before = true /\ onOneLine after = true.
Proof.
  unfold FileManagementUtils.searchWithWildcards.
  rewrite searchWithWildcards_star_splits. split.
  - intros (before & tail & -> & Hbefore & Htail).
    destruct tail as [|c after]; [discriminate|].
    rewrite searchWithWildcards_char in Htail by reflexivity.
    change (Ascii.eqb "."%char "?"%char) with false in Htail. cbv beta iota in Htail.
    apply andb_prop in Htail. destruct Htail as [Hdot Hafter].
    apply Ascii.eqb_eq in Hdot. subst c.
    apply searchWithWildcards_star_splits in Hafter.
    destruct Hafter as (run & tail & -> & Hrun & Hend).
    destruct tail; [|discriminate]. rewrite append_empty_r.
    exists before, run. repeat split; assumption.
  - intros (before & after & -> & Hbefore & Hafter).
    exists before, ("." ++ after). repeat split; [exact Hbefore|].
    cbn [append]. rewrite searchWithWildcards_char by reflexivity.
    change (Ascii.eqb "."%char "?"%char) with false. cbv beta iota.
    rewrite Ascii.eqb_refl. cbn [andb].
    apply searchWithWildcards_star_splits. exists after, "".
    rewrite append_empty_r. repeat split. exact Hafter.
Qed.

(** [FILES_ONLY] and [FOLDERS_ONLY] together keep nothing. *)
Theorem filterPaths_files_and_folders_only (d : FS) (filters : list string)
    (filePath : string) :
  In FileManagementUtils.FILES_ONLY filters ->
  In FileManagementUtils.FOLDERS_ONLY filters ->
  FileManagementUtils.filterPaths d filters filePath = false.
Proof.
  intros Hfiles Hfolders. unfold FileManagementUtils.filterPaths.
  rewrite (proj2 (arrayIncludes_In _ _) Hfiles), (proj2 (arrayIncludes_In _ _) Hfolders).
  destruct (FileManagementUtils.isDirectory d filePath); reflexivity.
Qed.

(** [pathsAreEqual] is symmetric, holds of a path and itself when the
    path resolves, is transitive, and fails as soon as one of the two
    paths does not resolve. *)
Theorem pathsAreEqual_equivalence (d : FS) :
  (forall a b, FileManagementUtils.pathsAreEqual d a b = FileManagementUtils.pathsAreEqual d b a)
  /\ (forall a, realpathSync d (path_resolve1 a) <> None ->
                FileManagementUtils.pathsAreEqual d a a = true)
  /\ (forall a b c,
         FileManagementUtils.pathsAreEqual d a b = true ->
         FileManagementUtils.pathsAreEqual d b c = true ->
         FileManagementUtils.pathsAreEqual d a c = true)
  /\ (forall a b, realpathSync d (path_resolve1 a) = None ->
                  FileManagementUtils.pathsAreEqual d a b = false
                  /\ FileManagementUtils.pathsAreEqual d b a = false).
Proof.
  unfold FileManagementUtils.pathsAreEqual. repeat split.
  - intros a b. destruct (realpathSync d (path_resolve1 a));
      destruct (realpathSync d (path_resolve1 b)); try reflexivity.
    destruct process_platform_win32; apply String.eqb_sym.
  - intros a Ha. destruct (realpathSync d (path_resolve1 a)); [|contradiction].
    destruct process_platform_win32; apply String.eqb_refl.
  - intros a b c. destruct (realpathSync d (path_resolve1 a));
      destruct (realpathSync d (path_resolve1 b));
      destruct (realpathSync d (path_resolve1 c)); try discriminate.
    destruct process_platform_win32; rewrite !String.eqb_eq; congruence.
  - rewrite H. reflexivity.
  - rewrite H. destruct (realpathSync d (path_resolve1 b)); reflexivity.
Qed.

End Filters.

Lemma searchWithWildcards_literal_witness :
  FileManagementUtils.searchWithWildcards "/ws/LibA/src/com/a/X.as" "as" = false.
Proof.
  exact (eq_trans (searchWithWildcards_literal "/ws/LibA/src/com/a/X.as" "as" eq_refl eq_refl)
           eq_refl).
Defined.

Lemma filterPaths_files_and_folders_only_witness :
  FileManagementUtils.filterPaths (env := Demo.env) Demo.workspace
    ["FILES_ONLY"; "FOLDERS_ONLY"] "/ws/LibA" = false.
Proof.
  apply (filterPaths_files_and_folders_only (env := Demo.env));
    [left; reflexivity|right; left; reflexivity].
Defined.

(** ** The walk of [listFiles] *)

Section Walk.
Context {env : NodeEnv}.

Lemma walkEntries_walks (walk : string -> list string -> Outcome unit * list string)
    (d : FS) (currentDir : string) (entries : list string) :
  Fs.readdirSync d currentDir = Some entries ->
  (forall dir acc, walks d dir (walk dir acc) acc) ->
  forall filesInDir allPaths,
    incl filesInDir entries ->
    exists added,
      snd (FileManagementUtils.walkEntries walk d currentDir filesInDir allPaths)
      = (allPaths ++ added)%list
      /\ (forall p, In p added -> inside d currentDir p)
      /\ (fst (FileManagementUtils.walkEntries walk d currentDir filesInDir allPaths)
          = Returned tt ->
          forall file, In file filesInDir ->
            In (path_join currentDir file) added
            /\ (Fs.statIsDirectory d (path_join currentDir file) = Some true ->
                forall p, inside d (path_join currentDir file) p -> In p added)).
Proof.
  intros Hdir Hwalk. induction filesInDir as [|file rest IH]; intros allPaths Hincl.
  - exists []. rewrite app_nil_r. repeat split; intros; contradiction.
  - assert (Hfile : In file entries) by (apply Hincl; left; reflexivity).
    assert (Hrest : incl rest entries) by (intros x Hx; apply Hincl; right; exact Hx).
    pose proof (inside_entry d currentDir entries file Hdir Hfile) as Hentry.
    cbn [FileManagementUtils.walkEntries].
    destruct (Fs.statIsDirectory d (path_join currentDir file)) as [[|]|] eqn:Hstat.
    + destruct (Hwalk (path_join currentDir file)
                  (allPaths ++ [path_join currentDir file])%list)
        as (below & Hbelow & Hsound & Hcomplete).
      destruct (walk (path_join currentDir file)
                  (allPaths ++ [path_join currentDir file])%list) as [[[]|e] allPaths'];
        cbn [fst snd] in *; subst allPaths'.
      * destruct (IH ((allPaths ++ [path_join currentDir file]) ++ below)%list Hrest)
          as (later & Hlater & Hsound' & Hcomplete').
        exists (path_join currentDir file :: below ++ later)%list.
        split; [rewrite Hlater, <- !app_assoc; reflexivity|]. split.
        -- intros p [<-|Hp]; [exact Hentry|]. apply in_app_or in Hp.
           destruct Hp as [Hp|Hp]; [|apply Hsound'; exact Hp].
           apply (inside_deeper d currentDir entries file p Hdir Hfile Hstat).
           apply Hsound. exact Hp.
        -- intros Hreturned other [<-|Hother].
           ++ split; [left; reflexivity|]. intros _ p Hp. right. apply in_or_app. left.
              apply (Hcomplete eq_refl). exact Hp.
           ++ destruct (Hcomplete' Hreturned other Hother) as [Hlisted Hdeep].
              split; [right; apply in_or_app; right; exact Hlisted|].
              intros Hd p Hp. right. apply in_or_app. right. apply (Hdeep Hd). exact Hp.
      * exists (path_join currentDir file :: below).
        split; [rewrite <- app_assoc; reflexivity|]. split; [|discriminate].
        intros p [<-|Hp]; [exact Hentry|].
        apply (inside_deeper d currentDir entries file p Hdir Hfile Hstat).
        apply Hsound. exact Hp.
    + destruct (IH (allPaths ++ [path_join currentDir file])%list Hrest)
        as (later & Hlater & Hsound' & Hcomplete').
      exists (path_join currentDir file :: later).
      split; [rewrite Hlater, <- app_assoc; reflexivity|]. split.
      * intros p [<-|Hp]; [exact Hentry|apply Hsound'; exact Hp].
      * intros Hreturned other [<-|Hother].
        -- split; [left; reflexivity|]. intros Hd. congruence.
        -- destruct (Hcomplete' Hreturned other Hother) as [Hlisted Hdeep].
           split; [right; exact Hlisted|]. intros Hd p Hp. right. apply (Hdeep Hd). exact Hp.
    + exists [path_join currentDir file]. split; [reflexivity|]. split; [|discriminate].
      intros p [<-|[]]. exact Hentry.
Qed.

(** The walk keeps the paths collected before it and adds, after them,
    only paths inside the directory it starts in: entries of that
    directory, or of a directory entry reached from it. When the walk
    returns, every such path has been added. *)
Theorem walkSync_lists_entries (depth : nat) (d : FS) (currentDir : string)
    (allPaths : list string) :
  exists added,
    snd (FileManagementUtils.walkSync depth d currentDir allPaths) = (allPaths ++ added)%list
    /\ (forall p, In p added -> inside d currentDir p)
    /\ (fst (FileManagementUtils.walkSync depth d currentDir allPaths) = Returned tt ->
        forall p, inside d currentDir p -> In p added).
Proof.
  revert currentDir allPaths.
  change (forall currentDir allPaths,
             walks d currentDir (FileManagementUtils.walkSync depth d currentDir allPaths)
               allPaths).
  induction depth as [|depth IH]; intros currentDir allPaths.
  - exists []. rewrite app_nil_r. repeat split; [intros p []|discriminate].
  - cbn [FileManagementUtils.walkSync].
    destruct (Fs.readdirSync d currentDir) as [entries|] eqn:Hdir.
    + destruct (walkEntries_walks _ d currentDir entries Hdir IH entries allPaths
                  (incl_refl entries)) as (added & Hadded & Hsound & Hcomplete).
      exists added. split; [exact Hadded|]. split; [exact Hsound|].
      intros Hreturned p Hinside.
      inversion Hinside as [dir entries' file Hdir' Hfile|dir entries' file q Hdir' Hfile Hstat Hdeep];
        subst; rewrite Hdir in Hdir'; injection Hdir' as <-.
      * apply (proj1 (Hcomplete Hreturned file Hfile)).
      * apply (proj2 (Hcomplete Hreturned file Hfile) Hstat). exact Hdeep.
    + exists []. rewrite app_nil_r. repeat split; [intros p []|discriminate].
Qed.

End Walk.

(** The walk of the library of the workspace. *)
Example walkSync_of_library :
  FileManagementUtils.walkSync (env := Demo.env) 64 Demo.workspace "/ws/LibA" ["/ws"]
  = (Returned tt,
     [ "/ws"; "/ws/LibA/src"; "/ws/LibA/src/com"; "/ws/LibA/src/com/a";
       "/ws/LibA/src/com/a/X.as"; "/ws/LibA/src/com/a/Y.as";
       "/ws/LibA/bin"; "/ws/LibA/bin/liba.swc" ]).
Proof. vm_compute. reflexivity. Qed.

(** ** The catalog of an archive: [readSwcClasses] *)

Lemma prefix_split (p s : string) :
  String.prefix p s = true -> s = p ++ Js.skip (String.length p) s.
Proof.
  revert s. induction p as [|a p IH]; intros s H; [destruct s; reflexivity|].
  destruct s as [|b s]; [discriminate|]. cbn [String.prefix] in H.
  destruct (Ascii.ascii_dec a b) as [<-|]; [|discriminate].
  cbn [append String.length Js.skip]. f_equal. apply IH. exact H.
Qed.

Lemma skip_append (a b : string) : Js.skip (String.length a) (a ++ b) = b.
Proof. induction a as [|c a IH]; [destruct b; reflexivity|exact IH]. Qed.

Lemma substring_append (a b : string) (n : nat) :
  String.substring 0 (String.length a + n) (a ++ b) = a ++ String.substring 0 n b.
Proof.
  induction a as [|c a IH]; [reflexivity|].
  cbn [append String.length Nat.add String.substring]. rewrite IH. reflexivity.
Qed.

Lemma spanId_inv (s id r : string) :
  SwcDef.spanId s = (id, r) ->
  s = id ++ r
  /\ allChars (fun c => negb (Ascii.eqb c (ascii_of_nat 34))) id = true
  /\ match r with String c _ => c = ascii_of_nat 34 | EmptyString => True end.
Proof.
  revert id r. induction s as [|c s IH]; intros id r H; cbn [SwcDef.spanId] in H.
  - injection H as <- <-. repeat split.
  - destruct (Ascii.eqb c (ascii_of_nat 34)) eqn:Hc.
    + injection H as <- <-. apply Ascii.eqb_eq in Hc. repeat split. exact Hc.
    + destruct (SwcDef.spanId s) as [id' r']. injection H as <- <-.
      destruct (IH id' r' eq_refl) as (Hs & Hid & Hr).
      cbn [append allChars]. rewrite Hc, Hid, <- Hs. repeat split. exact Hr.
Qed.

Lemma spanId_intro (id r : string) :
  allChars (fun c => negb (Ascii.eqb c (ascii_of_nat 34))) id = true ->
  SwcDef.spanId (id ++ String (ascii_of_nat 34) r) = (id, String (ascii_of_nat 34) r).
Proof.
  induction id as [|c id IH]; intros Hid.
  - cbn [append SwcDef.spanId]. rewrite Ascii.eqb_refl. reflexivity.
  - cbn [allChars] in Hid. apply andb_prop in Hid. destruct Hid as [Hc Hid].
    apply negb_true_iff in Hc. cbn [append SwcDef.spanId]. rewrite Hc, (IH Hid). reflexivity.
Qed.

Lemma spanSpace_inv (s r : string) (k : nat) :
  SwcDef.spanSpace s = (k, r) ->
  exists sp, s = sp ++ r /\ String.length sp = k /\ allChars Js.isSpace sp = true.
Proof.
  revert k r. induction s as [|c s IH]; intros k r H; cbn [SwcDef.spanSpace] in H.
  - injection H as <- <-. exists "". repeat split.
  - destruct (Js.isSpace c) eqn:Hc.
    + destruct (SwcDef.spanSpace s) as [k' r']. injection H as <- <-.
      destruct (IH k' r' eq_refl) as (sp & Hs & Hk & Hsp).
      exists (String c sp). cbn [append String.length allChars].
      rewrite Hc, Hsp, Hk, <- Hs. repeat split.
    + injection H as <- <-. exists "". repeat split.
Qed.

Lemma spanSpace_intro (sp r : string) :
  allChars Js.isSpace sp = true ->
  match r with String c _ => Js.isSpace c = false | EmptyString => True end ->
  SwcDef.spanSpace (sp ++ r) = (String.length sp, r).
Proof.
  intros Hsp Hr. induction sp as [|c sp IH].
  - cbn [append String.length]. destruct r as [|c r]; [reflexivity|].
    cbn [SwcDef.spanSpace]. rewrite Hr. reflexivity.
  - cbn [allChars] in Hsp. apply andb_prop in Hsp. destruct Hsp as [Hc Hsp].
    cbn [append SwcDef.spanSpace String.length]. rewrite Hc, (IH Hsp). reflexivity.
Qed.

(** The text of a match is matched again, from its first character, with
    the same group. *)
Lemma matchHere_rematch (s id : string) (len : nat) :
  SwcDef.matchHere s = Some (len, id) ->
  SwcDef.matchHere (String.substring 0 len s) = Some (len, id).
Proof.
  unfold SwcDef.matchHere at 1. intros H.
  destruct (String.prefix SwcDef.opening s) eqn:Hopen; [|discriminate].
  destruct (SwcDef.spanId (Js.skip (String.length SwcDef.opening) s)) as [id' r1] eqn:Hid.
  destruct id' as [|c0 id0]; [discriminate|]. destruct r1 as [|q r2]; [discriminate|].
  destruct (SwcDef.spanSpace r2) as [k r3] eqn:Hspace.
  destruct (Nat.ltb 0 k && String.prefix "/>" r3) eqn:Hend; [|discriminate].
  injection H as <- <-. apply andb_prop in Hend. destruct Hend as [Hk Hclose].
  apply prefix_split in Hopen. apply spanId_inv in Hid. destruct Hid as (Hs & Hquote & ->).
  apply spanSpace_inv in Hspace. destruct Hspace as (sp & -> & <- & Hsp).
  apply prefix_split in Hclose. rewrite Hs in Hopen. rewrite Hclose in Hopen.
  set (tail := Js.skip (String.length "/>") r3) in *. clearbody tail. clear Hs Hclose.
  set (id := String c0 id0) in *.
  assert (Htext : String.substring 0
                    (String.length SwcDef.opening + String.length id + 1
                     + String.length sp + 2) s
                  = SwcDef.opening ++ id ++ String (ascii_of_nat 34) (sp ++ "/>")).
  { rewrite Hopen.
    replace (String.length SwcDef.opening + String.length id + 1 + String.length sp + 2)%nat
      with (String.length SwcDef.opening
            + (String.length id + S (String.length sp + 2)))%nat by lia.
    rewrite !substring_append. cbn [String.substring]. rewrite substring_append.
    cbn [append String.substring]. destruct tail; reflexivity. }
  change (SwcDef.matchHere
            (String.substring 0
               (String.length SwcDef.opening + String.length id + 1 + String.length sp + 2) s)
          = Some ((String.length SwcDef.opening + String.length id + 1
                   + String.length sp + 2)%nat, id)).
  rewrite Htext. unfold SwcDef.matchHere.
  rewrite prefix_append, skip_append, (spanId_intro id _ Hquote).
  subst id. cbv beta iota. rewrite (spanSpace_intro sp "/>" Hsp eq_refl).
  rewrite Hk. reflexivity.
Qed.

Lemma matchFirst_of_match (m id : string) (len : nat) :
  SwcDef.matchHere m = Some (len, id) -> SwcDef.matchFirst m = Some id.
Proof. intros H. destruct m; cbn [SwcDef.matchFirst]; rewrite H; reflexivity. Qed.

Lemma matchesFrom_rematch (s : string) :
  forall hold m, In m (SwcDef.matchesFrom hold s) -> exists id, SwcDef.matchFirst m = Some id.
Proof.
  induction s as [|c s IH]; intros hold m Hin; [destruct Hin|].
  cbn [SwcDef.matchesFrom] in Hin. destruct hold as [|h]; [|apply (IH _ _ Hin)].
  destruct (SwcDef.matchHere (String c s)) as [[len id]|] eqn:Hm; [|apply (IH _ _ Hin)].
  destruct Hin as [<-|Hin]; [|apply (IH _ _ Hin)].
  exists id. apply (matchFirst_of_match _ _ len), matchHere_rematch, Hm.
Qed.

Lemma defIds_returns (matches : list string) :
  (forall m, In m matches -> exists id, SwcDef.matchFirst m = Some id) ->
  exists ids, defIds matches = Returned ids.
Proof.
  induction matches as [|m rest IH]; intros Hall; [exists []; reflexivity|].
  destruct (Hall m (or_introl eq_refl)) as [id Hid].
  destruct IH as [ids Hids]; [intros x Hx; apply Hall; right; exact Hx|].
  exists (Js.replaceFirst ":" "." id :: ids). cbn [defIds]. rewrite Hid, Hids. reflexivity.
Qed.

Section Catalog.
Context {env : NodeEnv}.

(** Reading group 1 of a definition never fails, since every text the
    global pattern yields matches the pattern again. So
    [readSwcClasses] throws in one case only: the inspection succeeded
    and its output holds no definition. *)
Theorem readSwcClasses_throws_only_without_definitions (swcPath : string) (d : FS)
    (e : Exn) :
  readSwcClasses swcPath d = Thrown e ->
  fst (inspection swcPath d) = 0%Z
  /\ SwcDef.matchGlobal (snd (inspection swcPath d)) = None.
Proof.
  unfold readSwcClasses. fold (inspection swcPath d). intros H.
  destruct (fst (inspection swcPath d) =? 0)%Z eqn:Hcode; [|discriminate].
  apply Z.eqb_eq in Hcode. split; [exact Hcode|].
  destruct (SwcDef.matchGlobal (snd (inspection swcPath d))) as [matches|] eqn:Hglobal;
    [exfalso|reflexivity].
  destruct (defIds_returns matches) as [ids Hids].
  - unfold SwcDef.matchGlobal in Hglobal. intros m Hm.
    apply (matchesFrom_rematch (snd (inspection swcPath d)) 0).
    destruct (SwcDef.matchesFrom 0 (snd (inspection swcPath d))); [discriminate|].
    injection Hglobal as <-. exact Hm.
  - rewrite Hids in H. discriminate.
Qed.

End Catalog.

Lemma readSwcClasses_throws_only_without_definitions_witness :
  fst (inspection (env := Demo.env) "/ws/App1/lib/empty.swc" Demo.workspace) = 0%Z
  /\ SwcDef.matchGlobal
       (snd (inspection (env := Demo.env) "/ws/App1/lib/empty.swc" Demo.workspace)) = None.
Proof.
  apply (readSwcClasses_throws_only_without_definitions (env := Demo.env)
           "/ws/App1/lib/empty.swc" Demo.workspace
           (TypeError "Cannot read properties of null (reading 'map')")).
  vm_compute. reflexivity.
Defined.

(** ** The folders and files of a project *)

Section Sources.
Context {env : NodeEnv}.
Variable listFiles : FS -> string -> list string -> bool -> bool -> option (list string).

(** A project that does not exist is left alone: it is not to be built,
    and [deleteCache] deletes nothing for it, the inclusions file of
    the workspace included. *)
Theorem missing_project_is_left_alone (depth : nat) (projectFolderPath : string)
    (keepInclusionsFile : bool) (st : State) :
  Fs.existsSync (fs st) projectFolderPath = false ->
  mustBuildProject listFiles (S depth) projectFolderPath st = (Returned false, st)
  /\ deleteCache listFiles (S depth) projectFolderPath keepInclusionsFile st
     = (Returned tt, st).
Proof.
  intros Hmissing. cbn [mustBuildProject deleteCache].
  unfold mustBuildProject_body, deleteCache_body.
  rewrite !bind_withFs, Hmissing, andb_false_r. split; reflexivity.
Qed.

Lemma keepsFile_bind {A B} (q content : string) (t : Z) (c : M A) (k : A -> M B) :
  keepsFile q content t c -> (forall a, keepsFile q content t (k a)) ->
  keepsFile q content t (bind c k).
Proof.
  intros Hc Hk st Hq. unfold bind. specialize (Hc st Hq).
  destruct (c st) as [[a|e] st']; cbn [snd] in *; [|exact Hc].
  apply Hk. exact Hc.
Qed.

Lemma readonly_keepsFile {A} (q content : string) (t : Z) (c : M A) :
  readonly c -> keepsFile q content t c.
Proof. intros Hc st Hq. rewrite (Hc st). exact Hq. Qed.

Lemma readonly_resolveFqns (inclusions : list LibraryRecord) (searchField : Field)
    (classFQNs : list string) :
  forall swcPaths, readonly (resolveFqns inclusions searchField classFQNs swcPaths).
Proof.
  induction classFQNs as [|fqn rest IH]; intros swcPaths; [apply readonly_ret|].
  cbn [resolveFqns]. apply readonly_bind; [|intros a; apply IH].
  unfold resolveFqn. apply readonly_bind; [apply readonly_liftOutcome|]. intros matching.
  apply readonly_bind; [|intros a; apply readonly_ret].
  destruct (_ && _); [|apply readonly_ret].
  apply readonly_bind; [apply readonly_print|intros _; apply readonly_ret].
Qed.

Lemma readonly_getMatchingSWCs (inclusions : list LibraryRecord) (classFQNs : list string)
    (searchField : option Field) :
  readonly (getMatchingSWCs inclusions classFQNs searchField).
Proof.
  unfold getMatchingSWCs. destruct inclusions; [apply readonly_ret|].
  destruct classFQNs; [apply readonly_ret|].
  apply readonly_bind; [apply readonly_resolveFqns|intros a; apply readonly_ret].
Qed.

Lemma writeFileSync_keepsFile (d d' : FS) (p data q content : string) (t : Z) :
  Fs.writeFileSync d p data = Some d' -> q <> p ->
  d q = Some (File content t) -> d' q = Some (File content t).
Proof.
  unfold Fs.writeFileSync. intros Hwrite Hp Hq.
  destruct (d p) as [[c0 t0|names t0]|];
    destruct (d (path_dirname p)) as [[c1 t1|names1 t1]|] eqn:Hdir;
    try discriminate; injection Hwrite as <-;
    destruct (String.eqb_spec q p); try contradiction;
    (destruct (String.eqb_spec q (path_dirname p)) as [->|]; [congruence|exact Hq]).
Qed.

Lemma getInclusionsMap_keepsFile (searchPath : string) (silentMode : bool)
    (q content : string) (t : Z) :
  q <> path_resolve searchPath inclusionsFileName ->
  keepsFile q content t (getInclusionsMap listFiles searchPath silentMode).
Proof.
  intros Hcache. unfold getInclusionsMap.
  apply keepsFile_bind; [apply readonly_keepsFile, readonly_tryCache|].
  intros [[inclusions cacheExists] cacheCorrupted].
  destruct (_ || _); [|apply readonly_keepsFile, readonly_ret].
  unfold rebuildInclusions.
  apply keepsFile_bind; [apply readonly_keepsFile, readonly_reading|]. intros dirs.
  apply keepsFile_bind; [apply readonly_keepsFile, readonly_indexProjects|]. intros built.
  apply keepsFile_bind.
  - intros st Hq.
    destruct (Fs.writeFileSync (fs st) _ _) as [d'|] eqn:Hwrite; [|exact Hq].
    cbn [snd fs setFs]. apply (writeFileSync_keepsFile _ _ _ _ _ _ _ Hwrite Hcache Hq).
  - intros _. apply keepsFile_bind; [|intros _; apply readonly_keepsFile, readonly_ret].
    apply readonly_keepsFile, readonly_unless, readonly_print.
Qed.

Lemma dependenciesMustBuild_keepsFile (self : string -> M bool) (projectFolderPath : string)
    (externalSWCs : list string) (q content : string) (t : Z) :
  (forall p, keepsFile q content t (self p)) ->
  keepsFile q content t (dependenciesMustBuild self projectFolderPath externalSWCs).
Proof.
  intros Hself. induction externalSWCs as [|swcPath rest IH];
    [apply readonly_keepsFile, readonly_ret|].
  cbn [dependenciesMustBuild].
  apply keepsFile_bind; [apply readonly_keepsFile, readonly_withFs|]. intros same.
  destruct same; [exact IH|].
  apply keepsFile_bind; [apply Hself|]. intros dirty.
  destruct dirty; [apply readonly_keepsFile, readonly_ret|exact IH].
Qed.

(** Whatever [mustBuildProject] does, its recursive calls included, no
    file is deleted or rewritten but the inclusions files it may write. *)
Theorem mustBuildProject_keeps_files (depth : nat) (projectFolderPath : string)
    (st : State) (q content : string) (t : Z) :
  (forall workspacePath, q <> path_resolve workspacePath inclusionsFileName) ->
  fs st q = Some (File content t) ->
  fs (snd (mustBuildProject listFiles depth projectFolderPath st)) q = Some (File content t).
Proof.
  intros Hcache. revert projectFolderPath st.
  change (forall projectFolderPath,
             keepsFile q content t (mustBuildProject listFiles depth projectFolderPath)).
  induction depth as [|depth IH]; intros projectFolderPath; [intros st Hq; exact Hq|].
  cbn [mustBuildProject]. unfold mustBuildProject_body.
  apply keepsFile_bind; [apply readonly_keepsFile, readonly_withFs|]. intros present.
  destruct (_ && _); [|apply readonly_keepsFile, readonly_ret].
  apply keepsFile_bind; [apply readonly_keepsFile, readonly_getSrcFolderOf|]. intros found.
  destruct found as [sourceFolder|]; [|apply readonly_keepsFile, readonly_ret].
  apply keepsFile_bind; [apply readonly_keepsFile, readonly_withFs|]. intros srcPresent.
  destruct (_ && _); [|apply readonly_keepsFile, readonly_ret].
  apply keepsFile_bind; [apply readonly_keepsFile, readonly_withFs|]. intros binPresent.
  destruct (negb binPresent); [apply readonly_keepsFile, readonly_ret|].
  apply keepsFile_bind.
  - unfold externalSWCsOf.
    apply keepsFile_bind; [apply getInclusionsMap_keepsFile, Hcache|]. intros inclusionsMap.
    apply keepsFile_bind; [apply readonly_keepsFile, readonly_reading|]. intros classes.
    apply readonly_keepsFile, readonly_getMatchingSWCs.
  - intros externalSWCs.
    apply keepsFile_bind; [apply dependenciesMustBuild_keepsFile, IH|]. intros dirty.
    destruct dirty; [apply readonly_keepsFile, readonly_ret|].
    apply readonly_keepsFile, readonly_reading.
Qed.

End Sources.

Lemma missing_project_is_left_alone_witness :
  mustBuildProject (env := Demo.env) Demo.listFiles 3 "/ws/Gone"
    (Demo.start Demo.workspace true "/ws/Gone")
  = (Returned false, Demo.start Demo.workspace true "/ws/Gone")
  /\ deleteCache (env := Demo.env) Demo.listFiles 3 "/ws/Gone" false
       (Demo.start Demo.workspace true "/ws/Gone")
     = (Returned tt, Demo.start Demo.workspace true "/ws/Gone").
Proof.
  apply (missing_project_is_left_alone (env := Demo.env) Demo.listFiles 2 "/ws/Gone" false
           (Demo.start Demo.workspace true "/ws/Gone")).
  vm_compute. reflexivity.
Defined.

Lemma cacheOf_ends_in_e (workspacePath : string) :
  Js.lastChar (Demo.cacheOf workspacePath) = Some "e"%char.
Proof.
  unfold Demo.cacheOf, Demo.resolve.
  change (String.prefix "/" inclusionsFileName) with false.
  change (String.eqb inclusionsFileName "../../") with false. cbv beta iota.
  induction workspacePath as [|c w IH]; [reflexivity|].
  change (String c w ++ "/" ++ inclusionsFileName)
    with (String c (w ++ "/" ++ inclusionsFileName)).
  destruct (w ++ "/" ++ inclusionsFileName) eqn:Hw; [destruct w; discriminate|exact IH].
Qed.

Lemma mustBuildProject_keeps_files_witness :
  fs (snd (mustBuildProject (env := Demo.env) Demo.listFiles 3 "/ws/App1"
             (Demo.start Demo.uncached true "/ws/App1"))) "/ws/LibA/bin/liba.swc"
  = Some (File "swc" 20%Z).
Proof.
  apply (mustBuildProject_keeps_files (env := Demo.env) Demo.listFiles 3 "/ws/App1"
           (Demo.start Demo.uncached true "/ws/App1") "/ws/LibA/bin/liba.swc" "swc" 20%Z).
  - intros workspacePath Heq. pose proof (cacheOf_ends_in_e workspacePath) as Hlast.
    unfold Demo.cacheOf in Hlast. cbn [path_resolve Demo.env] in Heq.
    rewrite <- Heq in Hlast. discriminate.
  - reflexivity.
Defined.

(** ** Names: [toProjectSafeName] and [getClassesFQNames] *)

Lemma lower_upper (c : ascii) : Js.lowerChar (Js.upperChar c) = Js.lowerChar c.
Proof. destruct c as [[] [] [] [] [] [] [] []]; reflexivity. Qed.

Lemma toLowerCase_capitalize (w : string) :
  Js.toLowerCase (StringUtils.capitalize w) = Js.toLowerCase w.
Proof. destruct w as [|c r]; [reflexivity|]. cbn. rewrite lower_upper. reflexivity. Qed.

Lemma toLowerCase_append (a b : string) :
  Js.toLowerCase (a ++ b) = Js.toLowerCase a ++ Js.toLowerCase b.
Proof. induction a as [|c a IH]; [reflexivity|]. cbn. rewrite IH. reflexivity. Qed.

Lemma toLowerCase_join (sep : string) (f : string -> string) (l : list string) :
  (forall w, Js.toLowerCase (f w) = Js.toLowerCase w) ->
  Js.toLowerCase (Js.join sep (map f l)) = Js.toLowerCase (Js.join sep l).
Proof.
  intros Hf. unfold Js.join. induction l as [|x r IH]; [reflexivity|].
  destruct r as [|y r]; [apply Hf|].
  change (Js.toLowerCase (f x ++ sep ++ String.concat sep (map f (y :: r)))
          = Js.toLowerCase (x ++ sep ++ String.concat sep (y :: r))).
  rewrite !toLowerCase_append, Hf, IH. reflexivity.
Qed.

Lemma join_split_char (c : ascii) (s : string) :
  Js.join (String c EmptyString) (Js.split c s) = s.
Proof.
  unfold Js.join. induction s as [|a r IH]; [reflexivity|].
  cbn [Js.split]. destruct (split_cons c r) as (w & ws & Hsplit).
  rewrite Hsplit in *. destruct (Ascii.eqb_spec a c) as [->|_].
  - change (String.concat (String c EmptyString) (EmptyString :: w :: ws))
      with (EmptyString ++ String c EmptyString
            ++ String.concat (String c EmptyString) (w :: ws)).
    rewrite IH. reflexivity.
  - rewrite concat_cons_char, IH. reflexivity.
Qed.

Lemma spaceRuns_collapseRuns (s : string) :
  forall inRun, spaceRuns inRun s = mapChars hyphenToSpace (collapseRuns inRun s).
Proof.
  induction s as [|c r IH]; intros inRun; [reflexivity|].
  cbn [spaceRuns collapseRuns]. destruct (isAlnum c) eqn:Halnum.
  - cbn [mapChars]. unfold hyphenToSpace at 1. rewrite (alnum_not_hyphen c Halnum), IH.
    reflexivity.
  - destruct inRun; [apply IH|]. cbn [mapChars]. rewrite IH. reflexivity.
Qed.

Lemma toLowerCase_spaced (s : string) :
  allChars isFileNameChar s = true ->
  Js.toLowerCase (mapChars hyphenToSpace s) = mapChars hyphenToSpace s.
Proof.
  induction s as [|c r IH]; intros Hs; [reflexivity|].
  cbn [allChars] in Hs. apply andb_prop in Hs. destruct Hs as [Hc Hr].
  cbn [mapChars Js.toLowerCase]. rewrite (IH Hr). f_equal.
  unfold hyphenToSpace. destruct (Ascii.eqb c "-"%char); [reflexivity|].
  apply (fileNameChar_fixed c Hc).
Qed.

(** The two names of a project agree: the safe name, in lower case, is
    the binary file name with a space for each hyphen. *)
Theorem toProjectSafeName_spells_binary_name (rawName : string) :
  Js.toLowerCase (toProjectSafeName rawName)
  = mapChars hyphenToSpace (toBinaryFileName rawName).
Proof.
  unfold toProjectSafeName. cbv zeta.
  rewrite (toLowerCase_join " " StringUtils.capitalize _ toLowerCase_capitalize).
  rewrite (join_split_char " "%char), spaceRuns_collapseRuns.
  apply toLowerCase_spaced, collapseRuns_chars.
Qed.

Section Names.
Context {env : NodeEnv}.

Lemma join_split_replace (c : ascii) (s : string) :
  Js.join "." (Js.split c s)
  = mapChars (fun a => if Ascii.eqb a c then "."%char else a) s.
Proof.
  unfold Js.join. induction s as [|a r IH]; [reflexivity|].
  cbn [Js.split mapChars]. destruct (split_cons c r) as (w & ws & Hsplit).
  rewrite Hsplit in *. destruct (Ascii.eqb a c).
  - change (String.concat "." (EmptyString :: w :: ws))
      with (EmptyString ++ "." ++ String.concat "." (w :: ws)).
    rewrite IH. reflexivity.
  - rewrite concat_cons_char, IH. reflexivity.
Qed.

(** A class name has the length of the path it is made from, and holds
    no path separator, provided the separator is not the dot. *)
Theorem getClassesFQNames_replaces_separators (classFiles : list string) :
  path_sep <> "."%char ->
  Forall2 (fun filePath className =>
             String.length className = String.length filePath
             /\ allChars (fun c => negb (Ascii.eqb c path_sep)) className = true)
    classFiles (getClassesFQNames classFiles).
Proof.
  intros Hsep. unfold getClassesFQNames.
  induction classFiles as [|filePath rest IH]; [constructor|].
  cbn [map]. constructor; [|exact IH]. rewrite join_split_replace. clear IH.
  induction filePath as [|a r [Hlen Hall]]; [split; reflexivity|].
  cbn [mapChars String.length allChars]. rewrite Hlen, Hall, andb_true_r. split; [reflexivity|].
  destruct (Ascii.eqb_spec a path_sep) as [_|Hother]; apply negb_true_iff, Ascii.eqb_neq;
    [intros Heq; apply Hsep; symmetry; exact Heq|exact Hother].
Qed.

End Names.

Lemma getClassesFQNames_replaces_separators_witness :
  Forall2 (fun filePath className =>
             String.length className = String.length filePath
             /\ allChars (fun c => negb (Ascii.eqb c (path_sep (NodeEnv := Demo.env))))
                  className = true)
    ["com/a/X"] (getClassesFQNames (env := Demo.env) ["com/a/X"]).
Proof.
  apply (getClassesFQNames_replaces_separators (env := Demo.env) ["com/a/X"]).
  vm_compute. discriminate.
Defined.
